(** * mkinit.static_mkinit: static generation of a package manifest

    A shallow embedding of [mkinit/static_mkinit.py] and of the properties its
    specification states about it.  The module reads the submodules of a
    package, decides for each one the list of names to re-export, and hands the
    resulting [(submodule, names)] pairs to the formatter.

    Conventions of the embedding:
    - a Python [str] is a [string], one character per element; comparison is
      [String.compare], which is the code point order Python uses;
    - a raised exception is the left injection of a sum ([exn + A]);
    - a source text is represented by the syntax tree the parser builds for it;
    - the collaborators that live outside [static_mkinit.py] (the filesystem,
      [xdoctest.static_analysis], [mkinit.top_level_ast], [builtins]) are the
      fields of a record [World] over which every definition is parametric. *)

From stdpp Require Import gmap strings list sorting.
From Stdlib Require Import Ascii.

(** ** Python strings *)

Module PyStr.

(** [s.startswith(p)] *)
Fixpoint startswith (p s : string) : bool :=
  match p, s with
  | EmptyString, _ => true
  | String a p', String b s' => if Ascii.eqb a b then startswith p' s' else false
  | String _ _, EmptyString => false
  end.

(** [s[n:]] for [n >= 0] *)
Fixpoint slice_from (n : nat) (s : string) : string :=
  match n, s with
  | O, _ => s
  | S n', String _ s' => slice_from n' s'
  | S _, EmptyString => EmptyString
  end.

(** [list(s)]: the characters of [s], each as a one-character string *)
Fixpoint chars (s : string) : list string :=
  match s with
  | EmptyString => []
  | String c s' => String c EmptyString :: chars s'
  end.

(** [s.replace('\\', '/').split('/')[0]]: the text before the first
    separator of either kind *)
Fixpoint first_component (s : string) : string :=
  match s with
  | EmptyString => EmptyString
  | String c s' =>
      if (Ascii.eqb c "/" || Ascii.eqb c "\")%bool then EmptyString
      else String c (first_component s')
  end.

(** [s.endswith('/')] *)
Fixpoint ends_with_sep (s : string) : bool :=
  match s with
  | EmptyString => false
  | String c EmptyString => Ascii.eqb c "/"
  | String _ s' => ends_with_sep s'
  end.

(** [os.path.join(a, b)] on a POSIX system *)
Definition join (a b : string) : string :=
  if startswith "/" b then b
  else match a with
       | EmptyString => b
       | _ => if ends_with_sep a then a +:+ b else a +:+ "/" +:+ b
       end.

(** [s1 <= s2] on Python strings *)
Definition le (s1 s2 : string) : Prop := String.leb s1 s2 = true.

#[global] Instance le_dec : RelDecision le.
Proof. intros s1 s2; unfold le; apply _. Defined.

(** [sorted(l)] on a list of strings.  Python's sort is a stable merge
    sort; on strings, where [<=] is a total order, the result is the one
    sorted rearrangement of [l] (lemma [sorted_unique] below). *)
Definition sorted (l : list string) : list string := merge_sort le l.

End PyStr.

(** ** Exceptions

    One constructor per exception the module raises itself, with the message
    of the [raise] statement in the comment, and one per class of exception a
    collaborator may raise. *)

Inductive exn : Type :=
  | NameError (key : string)        (* no static variable of that name *)
  | TypeError (msg : string)
  | ValueError (msg : string)
  | SyntaxError (msg : string)
  | OSError (path : string)         (* open/read failed *)
  | KeyError (key : string)
  | InvalidModule (modpath_or_name : string)
      (* ValueError('Invalid module {}'.format(modpath_or_name)) *)
  | ModnameIsNone
      (* AssertionError('modname is None') *)
  | CannotImport (pkgpath : string)
      (* Exception('cannot import {!r}'.format(pkgpath)) *)
  | FailedToLookup (rel_modname : string)
      (* Exception('Failed to lookup {!r}'.format(rel_modname)) *)
  | ErrorReading (sub_modpath : string) (cause : exn).
      (* IOError('Error reading {}, caused by {}'.format(sub_modpath, repr(ex))) *)

(** [except NameError] *)
Definition is_NameError (e : exn) : bool :=
  match e with NameError _ => true | _ => false end.

(** [except ValueError] *)
Definition is_ValueError (e : exn) : bool :=
  match e with ValueError _ | InvalidModule _ => true | _ => false end.

(** The error monad: [inl e] is "raised [e]", [inr x] is "returned [x]". *)
#[global] Instance exn_ret : MRet (sum exn) := fun _ x => inr x.
#[global] Instance exn_bind : MBind (sum exn) :=
  fun _ _ f m => match m with inl e => inl e | inr x => f x end.

Definition raise {A} (e : exn) : exn + A := inl e.

(** ** Syntax trees of the analysed fragment *)

Inductive lit : Type :=
  | LTrue | LFalse | LNone
  | LInt (z : Z)
  | LStr (s : string).

Inductive cmpop : Type := CEq | CNotEq | CLt | CLtE | CGt | CGtE.

#[warnings="-register-all"]
Inductive expr : Type :=
  | ELit (l : lit)
  | ENames (xs : list string)        (* a list display of string literals *)
  | ETuple (items : list expr)       (* a tuple display *)
  | EName (x : string)
  | ECompare (op : cmpop) (e1 e2 : expr)
  | EAnd (e1 e2 : expr)
  | EOr (e1 e2 : expr)
  | ENot (e1 : expr)
  | EOther.                          (* a call, an attribute, a comprehension, ... *)

#[warnings="-register-all"]
Inductive stmt : Type :=
  | SAssign (targets : list string) (value : expr)
  | SDef (name : string)
  | SClass (name : string)
  | SImport (names : list string)
  | SIf (test : expr) (body orelse : list stmt)   (* [elif] is an [SIf] in [orelse] *)
  | STry (body : list stmt) (handlers : list (list stmt))
  | SRaise
  | SOther.

Definition source : Type := list stmt.

(** ** Static values

    What [parse_static_value] hands back for a literal right-hand side:
    [None], a boolean, an integer, a string, or a list of strings. *)

Inductive static_value : Type :=
  | VNone
  | VBool (b : bool)
  | VInt (z : Z)
  | VStr (s : string)
  | VNames (xs : list string).

(** [iter(v)], collected: what [for m in v] ranges over *)
Definition py_iter (v : static_value) : exn + list string :=
  match v with
  | VNames xs => inr xs
  | VStr s => inr (PyStr.chars s)
  | VNone => raise (TypeError "'NoneType' object is not iterable")
  | VBool _ => raise (TypeError "'bool' object is not iterable")
  | VInt _ => raise (TypeError "'int' object is not iterable")
  end.

(** [sorted(v)] *)
Definition py_sorted (v : static_value) : exn + list string :=
  xs ← py_iter v; mret (PyStr.sorted xs).

(** [dict(pairs)]: a later pair overrides an earlier one with the same key *)
Definition py_dict {V} (pairs : list (string * V)) : gmap string V :=
  list_to_map (reverse pairs).

(** [d.keys()], in some order *)
Definition py_keys {V} (d : gmap string V) : list string := (map_to_list d).*1.

(** ** Collaborators *)

Record World : Type := {
  (** [six.PY2] *)
  PY2 : bool;
  (** [os.path.exists] *)
  path_exists : string -> bool;
  (** [os.path.abspath] *)
  abspath : string -> string;
  (** [open(path, 'r', encoding=enc).read()], the text given by its tree *)
  open_read : string -> option string -> exn + source;
  (** [static.modname_to_modpath(modname, hide_init=b)] *)
  modname_to_modpath : string -> bool -> option string;
  (** [static.modpath_to_modname(modpath, check=False, relativeto=r)] *)
  modpath_to_modname : string -> option string -> option string;
  (** [static.split_modpath(modpath, check=False)] *)
  split_modpath : string -> exn + (string * string);
  (** [static.package_modpaths(pkgpath, with_pkg=True, recursive=False,
      check=False)] *)
  package_modpaths : string -> list string;
  (** [static.parse_static_value(key, source)] *)
  parse_static_value : string -> source -> exn + static_value;
  (** [TopLevelVisitor.parse(source).attrnames], for a source the analyser
      accepts *)
  attrnames : source -> list string;
  (** [dir(builtins)] *)
  builtin_names : list string
}.

(** ** The module *)

Section static_mkinit.
Context (w : World).

Definition _rectify_to_modpath (modpath_or_name : string) : exn + string :=
  if path_exists w modpath_or_name then mret (abspath w modpath_or_name)
  else match modname_to_modpath w modpath_or_name true with
       | None => raise (InvalidModule modpath_or_name)
       | Some modpath => mret modpath
       end.

Definition parse_submodule_definition (modpath : string) : exn + static_value :=
  let init_fpath := PyStr.join modpath "__init__.py" in
  if path_exists w init_fpath then
    source ← open_read w init_fpath None;
    match parse_static_value w "__submodules__" source with
    | inr imports => mret imports
    | inl e =>
        if is_NameError e then
          match parse_static_value w "__SUBMODULES__" source with
          | inr imports => mret imports
          | inl e' => if is_NameError e' then mret VNone else raise e'
          end
        else raise e
    end
  else mret VNone.

(** The loop of [_find_local_submodules] over the children of the package *)
Fixpoint local_submodules_loop (pkgname root_pkgpath : string)
    (sub_modpaths : list string) : exn + list (string * string) :=
  match sub_modpaths with
  | [] => mret []
  | sub_modpath :: rest =>
      match modpath_to_modname w sub_modpath (Some root_pkgpath) with
      | None => raise (TypeError "'NoneType' object is not subscriptable")
      | Some sub_modname =>
          let rel_modname := PyStr.slice_from (String.length pkgname + 1) sub_modname in
          if (String.eqb rel_modname "" || PyStr.startswith "_" rel_modname)%bool then
            local_submodules_loop pkgname root_pkgpath rest
          else
            more ← local_submodules_loop pkgname root_pkgpath rest;
            mret ((rel_modname, sub_modpath) :: more)
      end
  end.

(** Lines 133-139: the root package of [pkgpath] *)
Definition root_pkgpath (pkgpath : string) : exn + string :=
  match split_modpath w pkgpath with
  | inr (a, b) => mret (PyStr.join a (PyStr.first_component b))
  | inl e => if is_ValueError e then mret pkgpath else raise e
  end.

(** The generator, consumed to the end as [dict(...)] does *)
Definition _find_local_submodules (pkgpath : string) : exn + list (string * string) :=
  match modpath_to_modname w pkgpath None with
  | None => raise (CannotImport pkgpath)
  | Some pkgname =>
      root ← root_pkgpath pkgpath;
      local_submodules_loop pkgname root (package_modpaths w pkgpath)
  end.

(** Lines 186-195: read one submodule *)
Definition read_source (sub_modpath : string) : exn + source :=
  match open_read w sub_modpath (if PY2 w then None else Some "utf8") with
  | inr source => mret source
  | inl ex => raise (ErrorReading sub_modpath ex)
  end.

(** Lines 196-201: the declared [__all__], if it is to be honoured *)
Definition declared_all (use_all : bool) (source : source) : exn + static_value :=
  if use_all then
    match parse_static_value w "__all__" source with
    | inr v => mret v
    | inl e => if is_NameError e then mret VNone else raise e
    end
  else mret VNone.

(** Lines 204-214: the names the analysis found, minus the private ones and
    the builtins *)
Definition derived_attrs (source : source) : list string :=
  filter (fun attr => PyStr.startswith "_" attr = false /\ attr ∉ builtin_names w)
         (attrnames w source).

(** Lines 196-215: the sorted list appended to [from_imports] *)
Definition export_list (use_all : bool) (source : source) : exn + list string :=
  valid_attrs ← declared_all use_all source;
  match valid_attrs with
  | VNone => mret (PyStr.sorted (derived_attrs source))
  | v => py_sorted v
  end.

(** Lines 183-215: one turn of the loop *)
Definition from_import (import_paths : gmap string (option string))
    (use_all : bool) (rel_modname : string) : exn + (string * list string) :=
  match import_paths !! rel_modname with
  | None => raise (KeyError rel_modname)
  | Some None => raise (FailedToLookup rel_modname)
  | Some (Some sub_modpath) =>
      source ← read_source sub_modpath;
      attrs ← export_list use_all source;
      mret (rel_modname, attrs)
  end.

(** Lines 181-215: the loop; the first exception ends it *)
Fixpoint from_imports_loop (import_paths : gmap string (option string))
    (use_all : bool) (imports : list string) : exn + list (string * list string) :=
  match imports with
  | [] => mret []
  | rel_modname :: rest =>
      entry ← from_import import_paths use_all rel_modname;
      more ← from_imports_loop import_paths use_all rest;
      mret (entry :: more)
  end.

(** The value of [_static_parse_imports]: [(modname, imports, from_imports)] *)
Record parsed : Type := Parsed {
  ret_modname : option string;
  ret_imports : static_value;
  ret_from_imports : list (string * list string)
}.

(** Lines 170-179: the submodules to visit, in order, and where each is *)
Definition resolve_imports (modpath : string) (imports : static_value) :
    exn + (static_value * list string * gmap string (option string)) :=
  match imports with
  | VNone =>
      found ← _find_local_submodules modpath;
      let import_paths := py_dict (prod_map id Some <$> found) in
      let names := PyStr.sorted (py_keys import_paths) in
      mret (VNames names, names, import_paths)
  | _ =>
      match modpath_to_modname w modpath None with
      | None => raise ModnameIsNone
      | Some modname =>
          names ← py_iter imports;
          mret (imports, names,
                py_dict ((fun m => (m, modname_to_modpath w (modname +:+ "." +:+ m) false))
                           <$> names))
      end
  end.

Definition _static_parse_imports (modpath : string) (imports : static_value)
    (use_all : bool) : exn + parsed :=
  let modname := modpath_to_modname w modpath None in
  '(imports, names, import_paths) ← resolve_imports modpath imports;
  from_imports ← from_imports_loop import_paths use_all names;
  mret (Parsed modname imports from_imports).

(** [static_init] up to the call of the formatter [_initstr] *)
Definition static_init (modpath_or_name : string) (imports : static_value)
    (use_all : bool) : exn + parsed :=
  modpath ← _rectify_to_modpath modpath_or_name;
  imports ← match imports with
            | VNone => parse_submodule_definition modpath
            | _ => mret imports
            end;
  _static_parse_imports modpath imports use_all.

End static_mkinit.

(** ** The reachability analyser *)

Module TopLevelVisitor.

(** Truth value of a literal, as [bool(l)] gives it *)
Definition lit_truth (l : lit) : bool :=
  match l with
  | LTrue => true
  | LFalse | LNone => false
  | LInt z => negb (Z.eqb z 0)
  | LStr s => negb (String.eqb s "")
  end.

Definition lit_of_bool (b : bool) : lit := if b then LTrue else LFalse.

(** Numeric reading of a literal ([True] is [1], [False] is [0]) *)
Definition lit_num (l : lit) : option Z :=
  match l with
  | LTrue => Some 1%Z
  | LFalse => Some 0%Z
  | LInt z => Some z
  | LNone | LStr _ => None
  end.

Definition lit_eq (l1 l2 : lit) : bool :=
  match lit_num l1, lit_num l2 with
  | Some z1, Some z2 => Z.eqb z1 z2
  | _, _ =>
      match l1, l2 with
      | LNone, LNone => true
      | LStr s1, LStr s2 => String.eqb s1 s2
      | _, _ => false
      end
  end.

(** An ordering comparison is decided between two numbers or two strings *)
Definition lit_lt (l1 l2 : lit) : option bool :=
  match lit_num l1, lit_num l2 with
  | Some z1, Some z2 => Some (Z.ltb z1 z2)
  | _, _ =>
      match l1, l2 with
      | LStr s1, LStr s2 => Some (String.ltb s1 s2)
      | _, _ => None
      end
  end.

Definition compare_lits (op : cmpop) (l1 l2 : lit) : option bool :=
  match op with
  | CEq => Some (lit_eq l1 l2)
  | CNotEq => Some (negb (lit_eq l1 l2))
  | CLt => lit_lt l1 l2
  | CGt => lit_lt l2 l1
  | CLtE => negb <$> lit_lt l2 l1
  | CGtE => negb <$> lit_lt l1 l2
  end.

(** Modelled from the spec: the evaluator of the restricted
    literal-expression language of [mkinit.top_level_ast] (spec 4.1 and 9):
    literals, comparisons between literals, boolean combinations, and names
    known to hold a literal.  [None] is "indeterminate". *)
Fixpoint static_lit (known : gmap string lit) (e : expr) : option lit :=
  match e with
  | ELit l => Some l
  | EName x => known !! x
  | ECompare op e1 e2 =>
      l1 ← static_lit known e1;
      l2 ← static_lit known e2;
      lit_of_bool <$> compare_lits op l1 l2
  | EAnd e1 e2 =>
      l1 ← static_lit known e1;
      if lit_truth l1 then static_lit known e2 else Some l1
  | EOr e1 e2 =>
      l1 ← static_lit known e1;
      if lit_truth l1 then Some l1 else static_lit known e2
  | ENot e1 => l1 ← static_lit known e1; Some (lit_of_bool (negb (lit_truth l1)))
  | ENames _ | ETuple _ | EOther => None
  end.

(** The guard [__name__ == '__main__'] *)
Definition is_main_check (e : expr) : bool :=
  match e with
  | ECompare CEq (EName x) (ELit (LStr s)) =>
      (String.eqb x "__name__" && String.eqb s "__main__")%bool
  | _ => false
  end.

(** Modelled from the spec: the three-valued truth of a branch guard
    (always true, always false, indeterminate); the entry-point check is
    never taken (spec 4.1).  A tuple display is true unless it is empty, as
    the guard [elif (1, 2):] of the test package expects. *)
Definition static_truth (known : gmap string lit) (test : expr) : option bool :=
  if is_main_check test then Some false
  else match test with
       | ETuple items => Some (negb (bool_decide (items = [])))
       | _ => lit_truth <$> static_lit known test
       end.

(** What the analysis knows after a statement or a block: the names bound on
    every path through it, the names known to hold a literal, and whether
    control can reach its end. *)
Record flow : Type := Flow {
  bound : gset string;
  known : gmap string lit;
  completes : bool
}.

Definition forget (names : gset string) (known : gmap string lit) : gmap string lit :=
  filter (fun kv => kv.1 ∉ names) known.

(** Names bound by every branch that can complete; a chain none of whose
    branches completes binds nothing *)
Fixpoint common (branches : list flow) : option (gset string) :=
  match branches with
  | [] => None
  | f :: rest =>
      if completes f then
        match common rest with
        | None => Some (bound f)
        | Some names => Some (bound f ∩ names)
        end
      else common rest
  end.

Definition merge (known' : gmap string lit) (branches : list flow) : flow :=
  match common branches with
  | None => Flow ∅ known' false
  | Some names => Flow names known' true
  end.

(** The contribution of a branch that is taken for certain: its bindings if
    control can reach its end, none if it unconditionally raises *)
Definition taken (f : flow) : flow :=
  if completes f then f else Flow ∅ (known f) false.

(** A block, statement after statement *)
Definition visit_block_with (visit : gmap string lit -> stmt -> flow) :
    gmap string lit -> list stmt -> flow :=
  fix go known block :=
    match block with
    | [] => Flow ∅ known true
    | s :: rest =>
        let f1 := visit known s in
        let f2 := go f1.(TopLevelVisitor.known) rest in
        Flow (bound f1 ∪ bound f2) f2.(TopLevelVisitor.known)
             (completes f1 && completes f2)
    end.

(** Every name some statement inside may bind *)
Fixpoint may_bind (s : stmt) : gset string :=
  match s with
  | SAssign targets _ => list_to_set targets
  | SDef name | SClass name => {[ name ]}
  | SImport names => list_to_set names
  | SIf _ body orelse => ⋃ (may_bind <$> body) ∪ ⋃ (may_bind <$> orelse)
  | STry body handlers =>
      ⋃ (may_bind <$> body) ∪ ⋃ ((fun h => ⋃ (may_bind <$> h)) <$> handlers)
  | SRaise | SOther => ∅
  end.

(** Modelled from the spec: the traversal of [mkinit.top_level_ast]
    (spec 4.1).  An always-taken branch contributes its bindings and ends
    the chain; a never-taken branch contributes nothing and the chain goes
    on with its alternative; a branch that unconditionally raises contributes
    nothing; an indeterminate chain contributes the names
    bound by every branch that completes, the missing [else] counting as a
    branch that binds nothing; a protected block contributes the names bound
    by its body and by every handler that completes; definitions and imports
    bind their names; other statements are skipped. *)
Fixpoint visit (known : gmap string lit) (s : stmt) {struct s} : flow :=
  match s with
  | SAssign targets value =>
      Flow (list_to_set targets)
           (match value with
            | ELit l => foldr (fun x k => <[x:=l]> k) known targets
            | _ => forget (list_to_set targets) known
            end)
           true
  | SDef name | SClass name => Flow {[ name ]} (forget {[ name ]} known) true
  | SImport names => Flow (list_to_set names) (forget (list_to_set names) known) true
  | SIf test body orelse =>
      match static_truth known test with
      | Some true => taken (visit_block_with visit known body)
      | Some false => taken (visit_block_with visit known orelse)
      | None =>
          merge (forget (may_bind s) known)
                [visit_block_with visit known body;
                 visit_block_with visit known orelse]
      end
  | STry body handlers =>
      let known' := forget (may_bind s) known in
      merge known'
            (visit_block_with visit known body
               :: (visit_block_with visit known' <$> handlers))
  | SRaise => Flow ∅ known false
  | SOther => Flow ∅ known true
  end.

Definition visit_block : gmap string lit -> list stmt -> flow :=
  visit_block_with visit.

(** Modelled from the spec: [TopLevelVisitor.parse(source).attrnames], the
    always-bound names of a module (spec 4.1), which is absent from the
    sources at hand. *)
Definition parse (source : source) : list string :=
  elements (bound (visit_block ∅ source)).

(** The chain [if g1: b1 / elif g2: b2 / ...] continued by the conditional
    [last], whose branches become the later [elif] branches of the chain *)
Definition elif_chain (branches : list (expr * list stmt)) (last : stmt) : stmt :=
  foldr (fun branch rest => SIf branch.1 branch.2 [rest]) last branches.

(** Every name a statement may bind somewhere outside the branches guarded by
    the literal [False] *)
Fixpoint may_bind_live (s : stmt) : gset string :=
  match s with
  | SAssign targets _ => list_to_set targets
  | SDef name | SClass name => {[ name ]}
  | SImport names => list_to_set names
  | SIf (ELit LFalse) _ orelse => ⋃ (may_bind_live <$> orelse)
  | SIf _ body orelse => ⋃ (may_bind_live <$> body) ∪ ⋃ (may_bind_live <$> orelse)
  | STry body handlers =>
      ⋃ (may_bind_live <$> body) ∪ ⋃ ((fun h => ⋃ (may_bind_live <$> h)) <$> handlers)
  | SRaise | SOther => ∅
  end.

End TopLevelVisitor.

(** ** A reference for [xdoctest.static_analysis.parse_static_value]

    The library is not part of this repository.  The properties below are
    stated for an arbitrary [World]; this reference supplies one concrete
    collaborator on which they can be run: the last assignment to the
    variable gives the value, a right-hand side that is no static value of the
    model is reported as non-static, and a variable never assigned raises
    [NameError]. *)

Module Xdoctest.

Definition static_node_value (e : expr) : exn + static_value :=
  match e with
  | ELit LNone => inr VNone
  | ELit LTrue => inr (VBool true)
  | ELit LFalse => inr (VBool false)
  | ELit (LInt z) => inr (VInt z)
  | ELit (LStr s) => inr (VStr s)
  | ENames xs => inr (VNames xs)
  | _ => inl (TypeError "Cannot parse a static value from non-static node")
  end.

(** The assignments of a tree, in the order a node visitor meets them *)
Fixpoint assignments (s : stmt) : list (list string * expr) :=
  match s with
  | SAssign targets value => [(targets, value)]
  | SIf _ body orelse => (body ≫= assignments) ++ (orelse ≫= assignments)
  | STry body handlers =>
      (body ≫= assignments) ++ (handlers ≫= (fun h => h ≫= assignments))
  | _ => []
  end.

Fixpoint last_value (key : string) (found : option static_value)
    (nodes : list (list string * expr)) : exn + option static_value :=
  match nodes with
  | [] => inr found
  | (targets, value) :: rest =>
      if bool_decide (key ∈ targets) then
        v ← static_node_value value; last_value key (Some v) rest
      else last_value key found rest
  end.

Definition parse_static_value (key : string) (source : source) : exn + static_value :=
  found ← last_value key None (source ≫= assignments);
  match found with
  | None => inl (NameError key)
  | Some v => inr v
  end.

End Xdoctest.

(** ** A small package to run the module on *)

Module Demo.

(** Some of the names of Python's [builtins] module *)
Definition some_builtins : list string :=
  ["abs"; "all"; "any"; "bool"; "dict"; "dir"; "filter"; "id"; "int"; "len";
   "list"; "map"; "max"; "min"; "object"; "open"; "print"; "range"; "set";
   "sorted"; "str"; "sum"; "tuple"; "type"; "zip"; "Exception"; "ValueError";
   "True"; "False"; "None"; "__name__"; "__doc__"].

Definition file_of (m : string) : string := "/site/pkg/" +:+ m +:+ ".py".

Definition dotted (m : string) : string :=
  if String.eqb m "__init__" then "pkg" else "pkg." +:+ m.

(** The package [pkg] installed at [/site/pkg], holding the given module
    files; a file is given by its tree, or by the error reading it raises *)
Definition world (mods : list (string * (exn + source))) : World := {|
  PY2 := false;
  path_exists p :=
    bool_decide (p = "/site/pkg" \/ p ∈ (file_of <$> mods.*1));
  abspath p := p;
  open_read p _ :=
    match list_find (fun m => file_of m.1 = p) mods with
    | Some (_, (_, text)) => text
    | None => inl (OSError p)
    end;
  modname_to_modpath name _ :=
    if String.eqb name "pkg" then Some "/site/pkg"
    else (fun m => file_of m.2.1) <$> list_find (fun m => dotted m.1 = name) mods;
  modpath_to_modname p _ :=
    if String.eqb p "/site/pkg" then Some "pkg"
    else (fun m => dotted m.2.1) <$> list_find (fun m => file_of m.1 = p) mods;
  split_modpath p :=
    if String.eqb p "/site/pkg" then inr ("/site", "pkg")
    else inl (ValueError "not a package");
  package_modpaths p :=
    if String.eqb p "/site/pkg" then file_of <$> mods.*1 else [];
  parse_static_value := Xdoctest.parse_static_value;
  attrnames := TopLevelVisitor.parse;
  builtin_names := some_builtins
|}.

Definition assign (x : string) : stmt := SAssign [x] (ELit (LInt 1)).

(** [if True: a = 1] and [if False: b = 1] *)
Definition true_false : source :=
  [SIf (ELit LTrue) [assign "a"] []; SIf (ELit LFalse) [assign "b"] []].

(** The module [submod1] that [tests/test_with_dummy.py] writes into its
    dummy package *)
Definition none (x : string) : stmt := SAssign [x] (ELit LNone).
Definition version_major : expr := EOther.       (* [sys.version_info.major] *)

Definition submod1 : source :=
  [ SImport ["six"];
    SAssign ["attr1"] (ELit LTrue);
    SAssign ["attr2"] EOther;
    SIf (ELit LTrue) [none "good_attr_01"] [];
    SIf (ELit LFalse) [none "bad_attr_false1"] [];
    SIf (ELit LNone) [none "bad_attr_none1"] [];
    SIf (ELit LTrue) [none "good_attr_02"] [none "bad_attr_true2"];
    SIf (ELit LFalse) [none "bad_attr_false2"] [none "good_attr_03"];
    SIf (ELit LNone) [none "bad_attr_none2"] [none "good_attr_04"];
    SIf (ELit LTrue) [none "good_attr_05"]
      [SIf (ELit LFalse) [none "bad_attr3"] [none "bad_attr3"]];
    SIf (ELit LFalse) [none "bad_attr_elif_True3_0"]
      [SIf (ELit LTrue) [none "good_attr_06"] [none "bad_attr_elif_True3_1"]];
    SImport ["sys"];
    SIf (ECompare CEq version_major (ELit (LInt 3)))
      [SAssign ["good_attr_07"] (ELit (LStr "py3")); none "bad_attr_uncommon4_1"]
      [SAssign ["good_attr_07"] (ELit (LStr "py2")); none "bad_attr_uncommon4_0"];
    SIf (ECompare CEq version_major (EName "good_attr_07"))
      [none "good_attr_08"; none "bad_attr_uncommon5_1"; none "bad_attr_uncommon5_0"]
      [SIf (EName "sys")
         [none "good_attr_08"; none "bad_attr_uncommon5_1"]
         [none "good_attr_08"; none "bad_attr_uncommon5_0"]];
    SAssign ["flag1"] (ECompare CLt version_major (ELit (LInt 10)));
    SAssign ["flag2"] (ECompare CGt version_major (ELit (LInt 10)));
    SAssign ["flag3"] (ECompare CGt version_major (ELit (LInt 10)));
    SIf (EName "flag1") [assign "bad_attr_num6"]
      [SIf (EName "flag2") [assign "bad_attr_num6"]
         [SIf (EName "flag3") [assign "bad_attr_num6"] []]];
    SIf (EName "flag1") [assign "bad_attr_num6_0"]
      [SIf (ELit (LInt 0)) [assign "bad_attr_num0"]
         [SIf (ELit (LInt 1)) [assign "bad_attr_09"] [assign "bad_attr13"]]];
    SIf (EName "flag1") [assign "good_attr_09"]
      [SIf (ELit (LInt 1)) [assign "good_attr_09"; assign "bad_attr_09_1"]
         [SIf (ECompare CEq (ELit (LInt 2)) (ELit (LInt 3))) [SOther] []]];
    SIf (ELit (LStr "foobar")) [assign "good_attr_10"] [];
    SIf (ELit LFalse) [assign "bad_attr_str7"]
      [SIf (ETuple [ELit (LInt 1); ELit (LInt 2)]) [assign "good_attr_11"]
         [SIf (ELit LTrue) [assign "bad_attr_true8"] []]];
    SIf (ECompare CNotEq (EName "flag1") (EName "flag2"))
      [none "good_attr_12"] [none "bad_attr_12"; SRaise];
    STry [none "good_attr_13"; none "bad_attr_13"] [[none "good_attr_13"]];
    STry [none "good_attr_14"] [[none "bad_attr_14"; SRaise]];
    SDef "func1";
    SClass "class1";
    SIf (ECompare CEq (EName "__name__") (ELit (LStr "__main__")))
      [none "bad_attr_main"] [];
    SIf (ECompare CEq (EName "__name__") (ELit (LStr "something_else")))
      [none "bad_something_else"] [] ].

(** Lines 149-154 of the module of the test package:
    [if False: bad_attr_str7 = 1 / elif (1, 2): good_attr_11 = 1 /
     elif True: bad_attr_true8 = 1] *)
Definition true_after_taken : source :=
  [SIf (ELit LFalse) [assign "bad_attr_str7"]
     [SIf (ETuple [ELit (LInt 1); ELit (LInt 2)]) [assign "good_attr_11"]
        [SIf (ELit LTrue) [assign "bad_attr_true8"] []]]].

(** [if True: a = 1; raise] *)
Definition true_raises : source :=
  [SIf (ELit LTrue) [assign "a"; SRaise] []].

(** [sub1], [sub2] and a private [_sub3], no declared submodule list *)
Definition three_subs : World :=
  world [("__init__", inr []);
         ("sub2", inr [assign "y"; assign "_hidden"; SDef "print"]);
         ("_sub3", inr [assign "z"]);
         ("sub1", inr true_false)].

(** [__all__ = ['x', 'print', '_y']] in a module that binds none of them *)
Definition declares_all : World :=
  world [("__init__", inr []);
         ("sub1", inr [SAssign ["__all__"] (ENames ["x"; "print"; "_y"])])].

(** [__all__ = 5] *)
Definition all_is_int : World :=
  world [("__init__", inr []);
         ("sub1", inr [SAssign ["__all__"] (ELit (LInt 5)); assign "a"])].

(** An aggregator with both spellings of the submodule list *)
Definition both_spellings : World :=
  world [("__init__", inr [SAssign ["__SUBMODULES__"] (ENames ["sub1"]);
                           SAssign ["__submodules__"] (ENames ["sub2"])]);
         ("sub1", inr [assign "a"]);
         ("sub2", inr [assign "b"])].

(** [locked] exists and cannot be read *)
Definition one_locked : World :=
  world [("__init__", inr []);
         ("locked", inl (OSError "Permission denied"));
         ("sub1", inr [assign "a"])].

End Demo.

(** What a turn of the loop that passes has done: the path was in the
    dictionary, the source was read, and its export list is the second
    component of the entry *)
Definition turn_passes (w : World) (paths : gmap string (option string))
    (use_all : bool) (rel_modname : string) (entry : string * list string) : Prop :=
  exists sub_modpath source,
    paths !! rel_modname = Some (Some sub_modpath) /\
    open_read w sub_modpath (if PY2 w then None else Some "utf8") = inr source /\
    export_list w use_all source = inr entry.2 /\
    entry.1 = rel_modname.

(** ** Variations of a world *)

(** The world [w] with another static lookup in place of its own *)
Definition with_parse_static_value (w : World)
    (lookup : string -> source -> exn + static_value) : World := {|
  PY2 := PY2 w;
  path_exists := path_exists w;
  abspath := abspath w;
  open_read := open_read w;
  modname_to_modpath := modname_to_modpath w;
  modpath_to_modname := modpath_to_modname w;
  split_modpath := split_modpath w;
  package_modpaths := package_modpaths w;
  parse_static_value := lookup;
  attrnames := attrnames w;
  builtin_names := builtin_names w
|}.

Module Cases.

(** The package without its aggregator file *)
Definition no_init : World :=
  Demo.world [("sub1", inr [Demo.assign "a"]); ("_sub3", inr [Demo.assign "z"])].

(** The package whose aggregator file cannot be read *)
Definition locked_init : World :=
  Demo.world [("__init__", inl (OSError "Permission denied"));
              ("sub1", inr [Demo.assign "a"])].

(** The aggregator declares [__submodules__ = ['sub2']] *)
Definition declares_sub2 : World :=
  Demo.world [("__init__", inr [SAssign ["__submodules__"] (ENames ["sub2"])]);
              ("sub1", inr [Demo.assign "a"]);
              ("sub2", inr [Demo.assign "b"; Demo.assign "a"])].

(** A lookup that always fails with a type error *)
Definition broken_lookup (key : string) (source : source) : exn + static_value :=
  inl (TypeError "Cannot parse a static value from non-static node").

(** A directory where the module [foo.py] and the package [foo/] both exist,
    and nothing has a package name *)
Definition shadowed : World := {|
  PY2 := false;
  path_exists p := bool_decide (p ∈ ["/site/pkg"; "/site/pkg/foo.py"; "/site/pkg/foo"]);
  abspath p := p;
  open_read p _ :=
    if String.eqb p "/site/pkg/foo.py" then inr [Demo.assign "from_module"]
    else if String.eqb p "/site/pkg/foo" then inr [Demo.assign "from_package"]
    else inl (OSError p);
  modname_to_modpath name _ := None;
  modpath_to_modname p _ :=
    if String.eqb p "/site/pkg" then Some "pkg"
    else if String.eqb p "/site/pkg/foo.py" then Some "pkg.foo"
    else if String.eqb p "/site/pkg/foo" then Some "pkg.foo"
    else None;
  split_modpath p := inl (ValueError "not a package");
  package_modpaths p :=
    if String.eqb p "/site/pkg" then ["/site/pkg/foo.py"; "/site/pkg/foo"] else [];
  parse_static_value := Xdoctest.parse_static_value;
  attrnames := TopLevelVisitor.parse;
  builtin_names := Demo.some_builtins
|}.

(** A path the locator cannot name *)
Definition nameless : World := {|
  PY2 := false;
  path_exists p := true;
  abspath p := p;
  open_read p _ := inl (OSError p);
  modname_to_modpath name _ := None;
  modpath_to_modname p _ := None;
  split_modpath p := inl (ValueError "not a package");
  package_modpaths p := [];
  parse_static_value := Xdoctest.parse_static_value;
  attrnames := TopLevelVisitor.parse;
  builtin_names := Demo.some_builtins
|}.

End Cases.

(** * Properties *)

(** ** Strings and sorting *)

Module PyStrFacts.
Import PyStr.

Lemma ascii_compare_refl c : Ascii.compare c c = Eq.
Proof. unfold Ascii.compare. apply N.compare_refl. Qed.

Lemma ascii_compare_lt_trans a b c :
  Ascii.compare a b = Lt -> Ascii.compare b c = Lt -> Ascii.compare a c = Lt.
Proof.
  unfold Ascii.compare. rewrite !N.compare_lt_iff. apply N.lt_trans.
Qed.

Lemma compare_lt_trans s1 : forall s2 s3,
  String.compare s1 s2 = Lt -> String.compare s2 s3 = Lt ->
  String.compare s1 s3 = Lt.
Proof.
  induction s1 as [|a s1 IH]; intros [|b s2] [|c s3]; simpl; try easy.
  destruct (Ascii.compare a b) eqn:Hab; try easy;
    destruct (Ascii.compare b c) eqn:Hbc; try easy; intros H1 H2.
  - apply Ascii.compare_eq_iff in Hab, Hbc; subst.
    rewrite ascii_compare_refl. eauto.
  - apply Ascii.compare_eq_iff in Hab; subst. now rewrite Hbc.
  - apply Ascii.compare_eq_iff in Hbc; subst. now rewrite Hab.
  - now rewrite (ascii_compare_lt_trans a b c).
Qed.

Lemma compare_refl s : String.compare s s = Eq.
Proof. induction s as [|a s IH]; simpl; [easy|]. now rewrite ascii_compare_refl. Qed.

#[global] Instance le_refl : Reflexive le.
Proof. intros s. unfold le, String.leb. now rewrite compare_refl. Qed.

#[global] Instance le_total : Total le.
Proof. intros s1 s2. apply String.leb_total. Qed.

#[global] Instance le_antisym : AntiSymm (=) le.
Proof. intros s1 s2. apply String.leb_antisym. Qed.

#[global] Instance le_trans : Transitive le.
Proof.
  intros s1 s2 s3. unfold le, String.leb.
  destruct (String.compare s1 s2) eqn:H12; try easy;
    destruct (String.compare s2 s3) eqn:H23; try easy; intros _ _.
  - apply String.compare_eq_iff in H12, H23; subst. now rewrite compare_refl.
  - apply String.compare_eq_iff in H12; subst. now rewrite H23.
  - apply String.compare_eq_iff in H23; subst. now rewrite H12.
  - now rewrite (compare_lt_trans s1 s2 s3).
Qed.

Lemma sorted_Sorted l : Sorted le (sorted l).
Proof. apply (Sorted_merge_sort le). Qed.

Lemma sorted_StronglySorted l : StronglySorted le (sorted l).
Proof. apply (StronglySorted_merge_sort le). Qed.

Lemma sorted_Permutation l : sorted l ≡ₚ l.
Proof. apply (merge_sort_Permutation le). Qed.

Lemma elem_of_sorted x l : x ∈ sorted l <-> x ∈ l.
Proof. now rewrite sorted_Permutation. Qed.

(** The sorted rearrangement of a list of strings is unique, so [sorted]
    does not depend on the sorting algorithm. *)
Lemma sorted_unique l l' : Sorted le l' -> l' ≡ₚ l -> l' = sorted l.
Proof.
  intros Hs Hp. apply (Sorted_unique le); [easy|apply sorted_Sorted|].
  now rewrite Hp, sorted_Permutation.
Qed.

Lemma sorted_idem l : Sorted le l -> sorted l = l.
Proof. intros Hs. symmetry. now apply sorted_unique. Qed.

Lemma startswith_underscore s :
  startswith "_" s = true <-> exists s', s = String "_" s'.
Proof.
  destruct s as [|c s]; cbn [startswith].
  - split; [easy|intros [? ?]; easy].
  - destruct (Ascii.eqb "_" c) eqn:E.
    + apply Ascii.eqb_eq in E; subst. split; eauto.
    + split; [easy|]. intros [s' [= -> _]]. now rewrite Ascii.eqb_refl in E.
Qed.

End PyStrFacts.


(** ** Dictionaries *)

Section py_dict_facts.
Context {V : Type}.
Implicit Types (pairs : list (string * V)) (d : gmap string V).

Lemma py_dict_lookup_Some pairs k v :
  py_dict pairs !! k = Some v -> (k, v) ∈ pairs.
Proof.
  unfold py_dict. intros H%elem_of_list_to_map_2. now rewrite elem_of_reverse in H.
Qed.

Lemma py_dict_lookup_None pairs k :
  py_dict pairs !! k = None <-> k ∉ pairs.*1.
Proof.
  unfold py_dict. rewrite <- not_elem_of_list_to_map, fmap_reverse.
  now rewrite elem_of_reverse.
Qed.

Lemma py_dict_lookup_is_Some pairs k :
  is_Some (py_dict pairs !! k) <-> k ∈ pairs.*1.
Proof.
  rewrite <- not_eq_None_Some, py_dict_lookup_None.
  split; [apply dec_stable | auto].
Qed.

(** A dict comprehension [{m: g(m) for m in names}] *)
Lemma py_dict_comprehension (g : string -> V) (names : list string) k :
  py_dict ((fun m => (m, g m)) <$> names) !! k =
    if decide (k ∈ names) then Some (g k) else None.
Proof.
  assert (((fun m => (m, g m)) <$> names).*1 = names) as Hfst.
  { rewrite <- list_fmap_compose. apply list_fmap_id. }
  destruct (decide (k ∈ names)) as [Hin|Hin].
  - destruct (py_dict _ !! k) as [v|] eqn:E.
    + apply py_dict_lookup_Some in E.
      apply list_elem_of_fmap in E as (m & [= -> ->] & _). reflexivity.
    + apply py_dict_lookup_None in E. now rewrite Hfst in E.
  - apply py_dict_lookup_None. now rewrite Hfst.
Qed.

Lemma elem_of_py_keys d k : k ∈ py_keys d <-> is_Some (d !! k).
Proof.
  unfold py_keys. rewrite list_elem_of_fmap. split.
  - intros ([k' v] & -> & H). apply elem_of_map_to_list in H. eauto.
  - intros [v H]. exists (k, v). split; [easy|]. now apply elem_of_map_to_list.
Qed.

Lemma NoDup_py_keys d : NoDup (py_keys d).
Proof. apply NoDup_fst_map_to_list. Qed.

End py_dict_facts.

(** ** The loop over the submodules *)

Section loop_facts.
Context (w : World).
Implicit Types (paths : gmap string (option string)) (names : list string).

Lemma from_import_name paths use_all rel entry :
  from_import w paths use_all rel = inr entry -> entry.1 = rel.
Proof.
  unfold from_import. destruct (paths !! rel) as [[p|]|]; try easy.
  destruct (read_source w p); simpl; [easy|].
  destruct (export_list w use_all s); simpl; [easy|]. now intros [= <-].
Qed.

(** A run of the loop that ends normally has one entry per name, in the
    order of the names. *)
Lemma from_imports_loop_names paths use_all names l :
  from_imports_loop w paths use_all names = inr l -> l.*1 = names.
Proof.
  revert l. induction names as [|m names IH]; simpl; intros l.
  - now intros [= <-].
  - destruct (from_import w paths use_all m) as [e|entry] eqn:E; simpl; [easy|].
    destruct (from_imports_loop w paths use_all names) as [e|more]; simpl; [easy|].
    intros [= <-]. simpl. f_equal; [now apply from_import_name in E | now apply IH].
Qed.

(** The loop raises what the first failing turn raises. *)
Lemma from_imports_loop_first_failure paths use_all pre m post e :
  (forall x, x ∈ pre -> exists entry, from_import w paths use_all x = inr entry) ->
  from_import w paths use_all m = inl e ->
  from_imports_loop w paths use_all (pre ++ m :: post) = inl e.
Proof.
  induction pre as [|x pre IH]; simpl; intros Hpre Hm.
  - now rewrite Hm.
  - destruct (Hpre x) as [entry ->]; [left|]. simpl.
    rewrite IH; [easy| |easy]. intros y Hy. apply Hpre. now right.
Qed.

(** A failing turn anywhere makes the loop fail, with the error of that
    turn or of an earlier one. *)
Lemma from_imports_loop_failure paths use_all names m e :
  m ∈ names ->
  from_import w paths use_all m = inl e ->
  exists pre x post e',
    names = pre ++ x :: post /\
    (forall y, y ∈ pre -> exists entry, from_import w paths use_all y = inr entry) /\
    from_import w paths use_all x = inl e' /\
    from_imports_loop w paths use_all names = inl e'.
Proof.
  induction names as [|y names IH]; intros Hin Hm; [now apply elem_of_nil in Hin|].
  destruct (from_import w paths use_all y) as [e'|entry] eqn:Ey.
  - exists [], y, names, e'. split; [easy|]. split; [|split; [easy|]].
    + intros z Hz. now apply elem_of_nil in Hz.
    + simpl. now rewrite Ey.
  - apply elem_of_cons in Hin as [->|Hin]; [congruence|].
    destruct (IH Hin Hm) as (pre & x & post & e' & -> & Hpre & Hx & Hloop).
    exists (y :: pre), x, post, e'. split; [easy|]. split; [|split; [easy|]].
    + intros z [->|Hz]%elem_of_cons; eauto.
    + simpl. rewrite Ey. simpl. now rewrite Hloop.
Qed.

End loop_facts.

(** ** The export list of one submodule *)

Section export_list_facts.
Context (w : World).

Lemma elem_of_derived_attrs source x :
  x ∈ derived_attrs w source <->
  x ∈ attrnames w source /\ PyStr.startswith "_" x = false /\ x ∉ builtin_names w.
Proof. unfold derived_attrs. rewrite list_elem_of_filter. tauto. Qed.

Lemma export_list_declared use_all source v :
  declared_all w use_all source = inr v ->
  export_list w use_all source =
    match v with
    | VNone => inr (PyStr.sorted (derived_attrs w source))
    | _ => py_sorted v
    end.
Proof. unfold export_list. now intros ->. Qed.

(** When [__all__] is not looked up, is not found, or is [None], the
    declaration counts as absent. *)
Lemma declared_all_absent use_all source :
  use_all = false \/
  (exists key, parse_static_value w "__all__" source = inl (NameError key)) \/
  parse_static_value w "__all__" source = inr VNone ->
  declared_all w use_all source = inr VNone.
Proof.
  unfold declared_all. intros [->|[[key H]|H]]; [easy| |];
    destruct use_all; try easy; now rewrite H.
Qed.

End export_list_facts.

(** C2. When [use_all] is true and the static lookup of [__all__] yields a
    literal list of names, the export list is that list sorted: the same
    names, each as often as declared, in ascending order.  Neither the
    analyser's result nor the builtin names take part, so private names,
    builtin names and names the module never binds all pass through. *)
Theorem explicit_all_is_used_sorted (w : World) (source : source) (xs : list string) :
  parse_static_value w "__all__" source = inr (VNames xs) ->
  export_list w true source = inr (PyStr.sorted xs) /\
  Sorted PyStr.le (PyStr.sorted xs) /\
  PyStr.sorted xs ≡ₚ xs /\
  (forall w' : World,
      parse_static_value w' "__all__" source = inr (VNames xs) ->
      export_list w' true source = export_list w true source).
Proof.
  intros H.
  assert (forall w0, parse_static_value w0 "__all__" source = inr (VNames xs) ->
                     export_list w0 true source = inr (PyStr.sorted xs)) as Hany.
  { intros w0 H0. unfold export_list, declared_all. now rewrite H0. }
  split; [now apply Hany|].
  split; [apply PyStrFacts.sorted_Sorted|].
  split; [apply PyStrFacts.sorted_Permutation|].
  intros w' H'. now rewrite !Hany.
Qed.

(** The declaration [__all__ = ['x', 'print', '_y']] in a module that binds
    none of the three yields [['_y', 'print', 'x']]. *)
Lemma explicit_all_is_used_sorted_witness :
  export_list Demo.declares_all true
    [SAssign ["__all__"] (ENames ["x"; "print"; "_y"])] = inr ["_y"; "print"; "x"].
Proof.
  pose proof (explicit_all_is_used_sorted Demo.declares_all
                [SAssign ["__all__"] (ENames ["x"; "print"; "_y"])]
                ["x"; "print"; "_y"] eq_refl) as [H _].
  exact H.
Defined.

(** C3. Without a usable declaration of [__all__] (the flag [use_all] is off,
    the lookup finds no such variable, or its value is [None]) the export list
    is the sorted list of the analyser's names that neither start with an
    underscore nor are names of builtins. *)
Theorem derived_export_list_is_filtered_sorted (w : World) (use_all : bool)
    (source : source) :
  use_all = false \/
  (exists key, parse_static_value w "__all__" source = inl (NameError key)) \/
  parse_static_value w "__all__" source = inr VNone ->
  exists l,
    export_list w use_all source = inr l /\
    l = PyStr.sorted
          (filter (fun attr => PyStr.startswith "_" attr = false /\ attr ∉ builtin_names w)
                  (attrnames w source)) /\
    Sorted PyStr.le l /\
    (forall x, x ∈ l <->
       x ∈ attrnames w source /\ PyStr.startswith "_" x = false /\ x ∉ builtin_names w).
Proof.
  intros H%declared_all_absent.
  exists (PyStr.sorted (derived_attrs w source)).
  split; [now rewrite (export_list_declared w use_all source VNone)|].
  split; [reflexivity|].
  split; [apply PyStrFacts.sorted_Sorted|].
  intros x. now rewrite PyStrFacts.elem_of_sorted, elem_of_derived_attrs.
Qed.

(** [sub2] binds [y], [_hidden] and a function called [print]; only [y] is
    exported. *)
Lemma derived_export_list_is_filtered_sorted_witness :
  export_list Demo.three_subs true
    [Demo.assign "y"; Demo.assign "_hidden"; SDef "print"] = inr ["y"].
Proof.
  destruct (derived_export_list_is_filtered_sorted Demo.three_subs true
              [Demo.assign "y"; Demo.assign "_hidden"; SDef "print"])
    as (l & H & -> & _).
  - right; left. exists "__all__". reflexivity.
  - exact H.
Defined.

(** C4, as stated, fails: a declared [__all__] is exported as it stands, so a
    private name and a builtin name both reach the export list. *)
Lemma export_list_not_always_filtered :
  export_list Demo.declares_all true
    [SAssign ["__all__"] (ENames ["x"; "print"; "_y"])] = inr ["_y"; "print"; "x"] /\
  PyStr.startswith "_" "_y" = true /\
  "print" ∈ builtin_names Demo.declares_all.
Proof.
  split; [reflexivity|]. split; [reflexivity|].
  apply list_elem_of_In. vm_compute. tauto.
Qed.

(** C4, amended.  An export list derived by analysis holds no name that
    starts with an underscore and no name of a builtin; an export list taken
    from a declared [__all__] holds exactly the declared names. *)
Theorem export_list_contents (w : World) (use_all : bool) (source : source)
    (l : list string) :
  export_list w use_all source = inr l ->
  exists v,
    declared_all w use_all source = inr v /\
    match v with
    | VNone =>
        forall x, x ∈ l -> PyStr.startswith "_" x = false /\ x ∉ builtin_names w
    | _ =>
        exists xs, py_iter v = inr xs /\ forall x, x ∈ l <-> x ∈ xs
    end.
Proof.
  unfold export_list.
  destruct (declared_all w use_all source) as [e|v]; simpl; [easy|].
  intros H. exists v. split; [reflexivity|].
  destruct v as [|b|z|s|xs]; simpl in H; try discriminate H.
  - injection H as <-. intros x Hx.
    apply PyStrFacts.elem_of_sorted, elem_of_derived_attrs in Hx. tauto.
  - injection H as <-. eexists. split; [reflexivity|].
    intros x. apply PyStrFacts.elem_of_sorted.
  - injection H as <-. eexists. split; [reflexivity|].
    intros x. apply PyStrFacts.elem_of_sorted.
Qed.

Lemma export_list_contents_witness :
  PyStr.startswith "_" "y" = false /\ "y" ∉ builtin_names Demo.three_subs.
Proof.
  destruct (export_list_contents Demo.three_subs true
              [Demo.assign "y"; Demo.assign "_hidden"; SDef "print"] ["y"] eq_refl)
    as (v & Hv & H).
  injection Hv as <-. apply H, list_elem_of_here.
Defined.

(** C6, as stated, fails: [__all__ = 5] is a declaration that is not a
    literal list, and the run ends with a type error instead of exporting
    the name [a] that the analysis finds. *)
Lemma non_list_declaration_is_fatal :
  parse_static_value Demo.all_is_int "__all__"
    [SAssign ["__all__"] (ELit (LInt 5)); Demo.assign "a"] = inr (VInt 5) /\
  PyStr.sorted (derived_attrs Demo.all_is_int
    [SAssign ["__all__"] (ELit (LInt 5)); Demo.assign "a"]) = ["a"] /\
  export_list Demo.all_is_int true
    [SAssign ["__all__"] (ELit (LInt 5)); Demo.assign "a"]
    = inl (TypeError "'int' object is not iterable") /\
  static_init Demo.all_is_int "pkg" VNone true
    = inl (TypeError "'int' object is not iterable").
Proof. repeat split; vm_compute; reflexivity. Qed.

(** C6, amended.  A declaration counts as absent when the static lookup
    reports that there is no such variable, or yields [None]: the export list
    is then derived by analysis, and the submodules are found by discovery.
    Any other exception of the lookup ends the run, and any other value is
    handed to [sorted] as it is. *)
Theorem absent_declaration_falls_back (w : World) :
  (forall source,
      (exists key, parse_static_value w "__all__" source = inl (NameError key)) \/
      parse_static_value w "__all__" source = inr VNone ->
      export_list w true source = inr (PyStr.sorted (derived_attrs w source))) /\
  (forall source e,
      parse_static_value w "__all__" source = inl e -> is_NameError e = false ->
      export_list w true source = inl e) /\
  (forall source v,
      parse_static_value w "__all__" source = inr v -> v <> VNone ->
      export_list w true source = py_sorted v) /\
  (forall modpath_or_name modpath source use_all,
      _rectify_to_modpath w modpath_or_name = inr modpath ->
      path_exists w (PyStr.join modpath "__init__.py") = true ->
      open_read w (PyStr.join modpath "__init__.py") None = inr source ->
      parse_static_value w "__submodules__" source = inr VNone \/
      (exists key, parse_static_value w "__submodules__" source = inl (NameError key)) /\
      ((exists key, parse_static_value w "__SUBMODULES__" source = inl (NameError key)) \/
       parse_static_value w "__SUBMODULES__" source = inr VNone) ->
      parse_submodule_definition w modpath = inr VNone /\
      static_init w modpath_or_name VNone use_all =
        _static_parse_imports w modpath VNone use_all).
Proof.
  split; [|split; [|split]].
  - intros source H.
    rewrite (export_list_declared w true source VNone); [reflexivity|].
    apply declared_all_absent. now right.
  - intros source e H He. unfold export_list, declared_all. now rewrite H, He.
  - intros source v H Hv. unfold export_list, declared_all. rewrite H.
    now destruct v.
  - intros x modpath source use_all Hrect Hex Hread H.
    assert (parse_submodule_definition w modpath = inr VNone) as Hdef.
    { unfold parse_submodule_definition. rewrite Hex, Hread. simpl.
      destruct H as [->|[[k ->] [[k' ->]| ->]]]; reflexivity. }
    split; [exact Hdef|].
    unfold static_init. rewrite Hrect. simpl. now rewrite Hdef.
Qed.

(** In the package of three submodules nothing is declared: [sub1] exports by
    analysis and the submodules are discovered. *)
Lemma absent_declaration_falls_back_witness :
  export_list Demo.three_subs true Demo.true_false = inr ["a"] /\
  static_init Demo.three_subs "pkg" VNone true =
    _static_parse_imports Demo.three_subs "/site/pkg" VNone true.
Proof.
  destruct (absent_declaration_falls_back Demo.three_subs) as (H1 & _ & _ & H3).
  split.
  - apply (H1 Demo.true_false). left. exists "__all__". reflexivity.
  - apply (H3 "pkg" "/site/pkg" [] true); try reflexivity.
    right. split; [exists "__submodules__"|left; exists "__SUBMODULES__"]; reflexivity.
Defined.

(** C10.  The aggregator file is asked for [__submodules__] first.  If that
    lookup yields a value, the value is the answer and [__SUBMODULES__] plays
    no part; only when it reports that there is no such variable is
    [__SUBMODULES__] looked up. *)
Theorem lowercase_spelling_wins (w : World) (modpath : string) (source : source) :
  path_exists w (PyStr.join modpath "__init__.py") = true ->
  open_read w (PyStr.join modpath "__init__.py") None = inr source ->
  (forall v,
      parse_static_value w "__submodules__" source = inr v ->
      parse_submodule_definition w modpath = inr v) /\
  (forall key,
      parse_static_value w "__submodules__" source = inl (NameError key) ->
      parse_submodule_definition w modpath =
        match parse_static_value w "__SUBMODULES__" source with
        | inr v => inr v
        | inl e => if is_NameError e then inr VNone else inl e
        end) /\
  (forall e,
      parse_static_value w "__submodules__" source = inl e ->
      is_NameError e = false ->
      parse_submodule_definition w modpath = inl e).
Proof.
  intros Hex Hread. unfold parse_submodule_definition. rewrite Hex, Hread. simpl.
  split; [|split].
  - now intros v ->.
  - intros key ->. simpl. now destruct (parse_static_value w "__SUBMODULES__" source).
  - now intros e -> ->.
Qed.

(** An aggregator with [__SUBMODULES__ = ['sub1']] and
    [__submodules__ = ['sub2']] declares [['sub2']]. *)
Lemma lowercase_spelling_wins_witness :
  parse_static_value Demo.both_spellings "__SUBMODULES__"
    [SAssign ["__SUBMODULES__"] (ENames ["sub1"]);
     SAssign ["__submodules__"] (ENames ["sub2"])] = inr (VNames ["sub1"]) /\
  parse_submodule_definition Demo.both_spellings "/site/pkg" = inr (VNames ["sub2"]).
Proof.
  split; [reflexivity|].
  destruct (lowercase_spelling_wins Demo.both_spellings "/site/pkg"
              [SAssign ["__SUBMODULES__"] (ENames ["sub1"]);
               SAssign ["__submodules__"] (ENames ["sub2"])] eq_refl eq_refl)
    as (H & _ & _).
  apply H. reflexivity.
Defined.

(** ** The submodules to visit *)

Section resolve_facts.
Context (w : World).

Lemma local_submodules_loop_total pkgname root children :
  (forall child, child ∈ children ->
     is_Some (modpath_to_modname w child (Some root))) ->
  exists found, local_submodules_loop w pkgname root children = inr found.
Proof.
  induction children as [|c children IH]; intros Hall; [simpl; eauto|].
  destruct (Hall c) as [sub Hc]; [left|].
  destruct IH as [found Hfound]; [intros; apply Hall; now right|].
  cbn [local_submodules_loop]. rewrite Hc, Hfound.
  destruct (_ || _)%bool; simpl; eauto.
Qed.

Lemma local_submodules_loop_spec pkgname root children found :
  local_submodules_loop w pkgname root children = inr found ->
  forall n p,
    (n, p) ∈ found <->
    p ∈ children /\
    exists sub, modpath_to_modname w p (Some root) = Some sub /\
                n = PyStr.slice_from (String.length pkgname + 1) sub /\
                n <> "" /\ PyStr.startswith "_" n = false.
Proof.
  revert found. induction children as [|c children IH]; intros found.
  - intros [= <-] n p. rewrite elem_of_nil. split; [easy|].
    intros [[]%elem_of_nil _].
  - cbn [local_submodules_loop].
    destruct (modpath_to_modname w c (Some root)) as [sub|] eqn:Hsub; [|easy].
    set (rel := PyStr.slice_from (String.length pkgname + 1) sub).
    destruct (String.eqb rel "" || PyStr.startswith "_" rel)%bool eqn:Hskip.
    + intros Hrest n p.
      rewrite (IH _ Hrest n p), elem_of_cons. split; [tauto|].
      intros [[->|Hp] (sub' & Hsub' & Hn & Hne & Hpriv)]; [|eauto 10].
      rewrite Hsub in Hsub'. injection Hsub' as <-. fold rel in Hn. subst n.
      apply orb_true_iff in Hskip as [Hskip%String.eqb_eq|Hskip]; congruence.
    + apply orb_false_iff in Hskip as [Hempty%String.eqb_neq Hpriv].
      destruct (local_submodules_loop w pkgname root children) as [e|more];
        [easy|].
      intros [= <-] n p. rewrite !elem_of_cons, (IH more eq_refl n p). split.
      * intros [[= -> ->]|[Hp H]]; [|tauto]. split; [now left|]. eauto.
      * intros [[->|Hp] (sub' & Hsub' & Hn & Hne & Hpriv')]; [|right; eauto 10].
        rewrite Hsub in Hsub'. injection Hsub' as <-. left. now subst.
Qed.

(** What the discovery branch of [resolve_imports] computes *)
Lemma resolve_imports_discovery modpath v names paths :
  resolve_imports w modpath VNone = inr (v, names, paths) ->
  exists found,
    _find_local_submodules w modpath = inr found /\
    v = VNames names /\
    Sorted PyStr.le names /\ NoDup names /\
    (forall n, n ∈ names <-> exists p, (n, p) ∈ found) /\
    (forall n o, paths !! n = Some o -> exists p, o = Some p /\ (n, p) ∈ found).
Proof.
  unfold resolve_imports.
  destruct (_find_local_submodules w modpath) as [e|found]; simpl; [easy|].
  intros [= <- <- <-]. exists found.
  split; [reflexivity|]. split; [reflexivity|].
  split; [apply PyStrFacts.sorted_Sorted|].
  split; [|split].
  - rewrite PyStrFacts.sorted_Permutation. apply NoDup_py_keys.
  - intros n.
    rewrite PyStrFacts.elem_of_sorted, elem_of_py_keys, py_dict_lookup_is_Some.
    rewrite list_elem_of_fmap. split.
    + intros ([n' o] & -> & Hin). simpl.
      apply list_elem_of_fmap in Hin as ([n'' p] & [= -> ->] & Hin). eauto.
    + intros [p Hin]. exists (n, Some p). split; [reflexivity|].
      apply list_elem_of_fmap. now exists (n, p).
  - intros n o Hlook. apply py_dict_lookup_Some in Hlook.
    apply list_elem_of_fmap in Hlook as ([n' p] & [= -> ->] & Hin). eauto.
Qed.

(** What the explicit branch computes: every entry of the list is looked
    up, and the list is visited in its own order *)
Lemma resolve_imports_explicit modpath imports pkg :
  imports <> VNone ->
  modpath_to_modname w modpath None = Some pkg ->
  resolve_imports w modpath imports =
    names ← py_iter imports;
    mret (imports, names,
          py_dict ((fun m => (m, modname_to_modpath w (pkg +:+ "." +:+ m) false))
                     <$> names)).
Proof. intros Hne Hpkg. unfold resolve_imports. rewrite Hpkg. now destruct imports. Qed.

Lemma static_parse_imports_inv modpath imports use_all r :
  _static_parse_imports w modpath imports use_all = inr r ->
  exists names paths,
    resolve_imports w modpath imports = inr (ret_imports r, names, paths) /\
    from_imports_loop w paths use_all names = inr (ret_from_imports r) /\
    (ret_from_imports r).*1 = names.
Proof.
  unfold _static_parse_imports.
  destruct (resolve_imports w modpath imports) as [e|[[v names] paths]]; simpl; [easy|].
  destruct (from_imports_loop w paths use_all names) as [e|l] eqn:Hloop; simpl; [easy|].
  intros [= <-]. simpl. exists names, paths.
  split; [reflexivity|]. split; [exact Hloop|].
  now apply from_imports_loop_names in Hloop.
Qed.

End resolve_facts.

(** ** The manifest *)

(** C5, as stated, fails: with the explicit list [['sub2', 'sub1']] the
    manifest lists [sub2] before [sub1]. *)
Lemma explicit_imports_keep_their_order :
  exists r,
    _static_parse_imports Demo.three_subs "/site/pkg" (VNames ["sub2"; "sub1"]) true
      = inr r /\
    (ret_from_imports r).*1 = ["sub2"; "sub1"] /\
    ~ Sorted PyStr.le (ret_from_imports r).*1.
Proof.
  eexists. split; [vm_compute; reflexivity|]. split; [reflexivity|].
  intros H. apply Sorted_inv in H as [_ H]. apply HdRel_inv in H. discriminate H.
Qed.

(** C5, amended.  When the submodules are discovered, the relative names of
    the manifest are in strictly ascending order; when a list of submodules is
    given or declared, the manifest follows the order of that list. *)
Theorem manifest_order (w : World) (modpath : string) (imports : static_value)
    (use_all : bool) (r : parsed) :
  _static_parse_imports w modpath imports use_all = inr r ->
  match imports with
  | VNone =>
      Sorted PyStr.le (ret_from_imports r).*1 /\ NoDup (ret_from_imports r).*1
  | _ => py_iter imports = inr (ret_from_imports r).*1
  end.
Proof.
  intros (names & paths & Hres & _ & ->)%static_parse_imports_inv.
  destruct imports as [|b|z|s|xs];
    [apply resolve_imports_discovery in Hres as (found & _ & _ & Hs & Hnd & _);
     now split|..];
    unfold resolve_imports in Hres;
    destruct (modpath_to_modname w modpath None) as [pkg|];
    simpl in Hres; try discriminate Hres; now injection Hres as _ <- _.
Qed.

Lemma manifest_order_witness :
  Sorted PyStr.le ["sub1"; "sub2"] /\ NoDup ["sub1"; "sub2"].
Proof.
  exact (manifest_order Demo.three_subs "/site/pkg" VNone true
           (Parsed (Some "pkg") (VNames ["sub1"; "sub2"])
                   [("sub1", ["a"]); ("sub2", ["y"])]) eq_refl).
Defined.

(** C7.  Without a list of submodules, the names visited are the relative
    names of the children of the package, except the empty name and the names
    that start with an underscore, each once and in ascending order.  The
    relative name of a child is its dotted name with the package name and the
    dot cut off; the aggregator file, whose relative name is empty or
    [__init__], is never among them.  A package holding [sub1], [sub2] and
    [_sub3] yields a manifest for [sub1] and [sub2], in this order. *)
Theorem discovered_submodules :
  (forall (w : World) (modpath pkgname root : string),
      modpath_to_modname w modpath None = Some pkgname ->
      root_pkgpath w modpath = inr root ->
      (forall child, child ∈ package_modpaths w modpath ->
         is_Some (modpath_to_modname w child (Some root))) ->
      exists names paths,
        resolve_imports w modpath VNone = inr (VNames names, names, paths) /\
        Sorted PyStr.le names /\ NoDup names /\
        (forall n, n ∈ names <->
           n <> "" /\ PyStr.startswith "_" n = false /\
           exists child sub,
             child ∈ package_modpaths w modpath /\
             modpath_to_modname w child (Some root) = Some sub /\
             n = PyStr.slice_from (String.length pkgname + 1) sub) /\
        ("" ∉ names) /\ ("__init__" ∉ names) /\
        (forall use_all r,
            _static_parse_imports w modpath VNone use_all = inr r ->
            ret_imports r = VNames names /\ (ret_from_imports r).*1 = names)) /\
  (exists r,
      static_init Demo.three_subs "pkg" VNone true = inr r /\
      ret_imports r = VNames ["sub1"; "sub2"] /\
      (ret_from_imports r).*1 = ["sub1"; "sub2"]).
Proof.
  split; [|eexists; split; [vm_compute; reflexivity|split; reflexivity]].
  intros w modpath pkgname root Hpkg Hroot Hall.
  destruct (local_submodules_loop_total w pkgname root _ Hall) as [found Hfound].
  assert (_find_local_submodules w modpath = inr found) as Hfind.
  { unfold _find_local_submodules. now rewrite Hpkg, Hroot. }
  destruct (resolve_imports w modpath VNone) as [e|[[v names] paths]] eqn:Hres.
  { unfold resolve_imports in Hres. now rewrite Hfind in Hres. }
  pose proof Hres as Hres'.
  apply resolve_imports_discovery in Hres'
    as (found' & Hfind' & -> & Hs & Hnd & Hnames & _).
  rewrite Hfind in Hfind'. injection Hfind' as <-.
  assert (forall n, n ∈ names <->
     n <> "" /\ PyStr.startswith "_" n = false /\
     exists child sub,
       child ∈ package_modpaths w modpath /\
       modpath_to_modname w child (Some root) = Some sub /\
       n = PyStr.slice_from (String.length pkgname + 1) sub) as Hchar.
  { intros n. rewrite Hnames. split.
    - intros [p Hp].
      apply (local_submodules_loop_spec w _ _ _ _ Hfound) in Hp
        as (Hin & sub & Hsub & Hn & Hne & Hpriv). eauto 10.
    - intros (Hne & Hpriv & child & sub & Hin & Hsub & Hn).
      exists child. apply (local_submodules_loop_spec w _ _ _ _ Hfound). eauto 10. }
  exists names, paths. split; [reflexivity|].
  split; [exact Hs|]. split; [exact Hnd|]. split; [exact Hchar|].
  split; [|split].
  - intros H%Hchar. now destruct H.
  - intros H%Hchar. destruct H as (_ & H & _). discriminate H.
  - intros use_all r (names' & paths' & Hres'' & _ & Hfst)%static_parse_imports_inv.
    rewrite Hres in Hres''. now injection Hres'' as <- <- <-.
Qed.

(** The package of three submodules: the children are the four files, the
    names visited are [sub1] and [sub2]. *)
Lemma discovered_submodules_witness :
  exists paths,
    resolve_imports Demo.three_subs "/site/pkg" VNone
      = inr (VNames ["sub1"; "sub2"], ["sub1"; "sub2"], paths).
Proof.
  destruct discovered_submodules as [H _].
  destruct (H Demo.three_subs "/site/pkg" "pkg" "/site/pkg" eq_refl eq_refl)
    as (names & paths & Hres & _).
  - intros child Hin. vm_compute in Hin.
    repeat (apply elem_of_cons in Hin as [->|Hin]; [vm_compute; eauto|]).
    now apply elem_of_nil in Hin.
  - exists paths. rewrite Hres.
    assert (names = ["sub1"; "sub2"]) as ->; [|reflexivity].
    vm_compute in Hres. now injection Hres as <- _.
Defined.

(** ** Failures *)

(** Two ways of cutting a list at an element: if everything before the second
    cut satisfies [P] and the element of the first cut does not, the second
    cut is at or before the first. *)
Lemma split_at_first_failure {A} (P : A -> Prop) (pre : list A) m post pre' x post' :
  pre ++ m :: post = pre' ++ x :: post' ->
  (forall y, y ∈ pre' -> P y) ->
  ~ P m ->
  (x = m /\ pre' = pre) \/ x ∈ pre.
Proof.
  revert pre'. induction pre as [|a pre IH]; intros [|z pre'] Hsplit Hpre' Hm;
    simpl in Hsplit; injection Hsplit as -> Hsplit.
  - now left.
  - exfalso. apply Hm, Hpre'. left.
  - right. left.
  - destruct (IH pre' Hsplit) as [[-> ->]|Hx]; [| |now left|right; now right].
    + intros y Hy. apply Hpre'. now right.
    + exact Hm.
Qed.

Section failure_facts.
Context (w : World).

Lemma from_import_unlocated paths use_all rel :
  paths !! rel = Some None ->
  from_import w paths use_all rel = inl (FailedToLookup rel).
Proof. unfold from_import. now intros ->. Qed.

Lemma from_import_unreadable paths use_all rel sub_modpath ex :
  paths !! rel = Some (Some sub_modpath) ->
  open_read w sub_modpath (if PY2 w then None else Some "utf8") = inl ex ->
  from_import w paths use_all rel = inl (ErrorReading sub_modpath ex).
Proof. unfold from_import, read_source. now intros -> ->. Qed.

(** A turn that fails makes the whole call fail. *)
Lemma static_parse_imports_failure modpath imports use_all v names paths m e :
  resolve_imports w modpath imports = inr (v, names, paths) ->
  m ∈ names ->
  from_import w paths use_all m = inl e ->
  exists e', _static_parse_imports w modpath imports use_all = inl e'.
Proof.
  intros Hres Hin Hm.
  destruct (from_imports_loop_failure w paths use_all names m e Hin Hm)
    as (_ & _ & _ & e' & _ & _ & _ & Hloop).
  exists e'. unfold _static_parse_imports. rewrite Hres. simpl. now rewrite Hloop.
Qed.

(** The call raises what the first failing turn raises. *)
Lemma static_parse_imports_first_failure modpath imports use_all v paths pre m post e :
  resolve_imports w modpath imports = inr (v, pre ++ m :: post, paths) ->
  (forall x, x ∈ pre -> exists entry, from_import w paths use_all x = inr entry) ->
  from_import w paths use_all m = inl e ->
  _static_parse_imports w modpath imports use_all = inl e.
Proof.
  intros Hres Hpre Hm. unfold _static_parse_imports. rewrite Hres. simpl.
  now rewrite (from_imports_loop_first_failure w paths use_all pre m post e).
Qed.

(** What [static_init] passes on *)
Lemma static_init_given modpath_or_name modpath imports use_all :
  _rectify_to_modpath w modpath_or_name = inr modpath ->
  imports <> VNone ->
  static_init w modpath_or_name imports use_all =
    _static_parse_imports w modpath imports use_all.
Proof. intros Hrect Hne. unfold static_init. rewrite Hrect. now destruct imports. Qed.

Lemma static_init_declared modpath_or_name modpath declared use_all :
  _rectify_to_modpath w modpath_or_name = inr modpath ->
  parse_submodule_definition w modpath = inr declared ->
  static_init w modpath_or_name VNone use_all =
    _static_parse_imports w modpath declared use_all.
Proof. intros Hrect Hdef. unfold static_init. rewrite Hrect. simpl. now rewrite Hdef. Qed.

End failure_facts.

(** C8, as stated, fails: with the list [['locked', 'nope']] the entry
    [nope] cannot be located, yet the run ends with the error of reading
    [locked], which does not name [nope]. *)
Lemma unlocated_entry_is_not_always_named :
  modname_to_modpath Demo.one_locked "pkg.nope" false = None /\
  static_init Demo.one_locked "pkg" (VNames ["locked"; "nope"]) true
    = inl (ErrorReading "/site/pkg/locked.py" (OSError "Permission denied")).
Proof. split; vm_compute; reflexivity. Qed.

(** C8, amended.  With a list of submodules in effect, for a package whose
    name is known, every entry is looked up; if an entry cannot be located
    the run fails and yields no manifest.  The error names the first such
    entry, unless the turn of an entry before it has failed, in which case the
    run ends with the error of that turn. *)
Theorem unlocated_entry_is_fatal (w : World) (modpath pkg : string)
    (imports : static_value) (use_all : bool) (pre post : list string) (m : string) :
  imports <> VNone ->
  modpath_to_modname w modpath None = Some pkg ->
  py_iter imports = inr (pre ++ m :: post) ->
  modname_to_modpath w (pkg +:+ "." +:+ m) false = None ->
  (forall x, x ∈ pre -> is_Some (modname_to_modpath w (pkg +:+ "." +:+ x) false)) ->
  exists paths e,
    resolve_imports w modpath imports = inr (imports, pre ++ m :: post, paths) /\
    (forall x, x ∈ pre ++ m :: post ->
       paths !! x = Some (modname_to_modpath w (pkg +:+ "." +:+ x) false)) /\
    _static_parse_imports w modpath imports use_all = inl e /\
    (e = FailedToLookup m \/
     exists x, x ∈ pre /\ from_import w paths use_all x = inl e) /\
    ((forall x, x ∈ pre -> exists entry, from_import w paths use_all x = inr entry) ->
     e = FailedToLookup m).
Proof.
  intros Hne Hpkg Hiter Hm Hpre.
  set (names := pre ++ m :: post) in *.
  set (paths := py_dict ((fun x => (x, modname_to_modpath w (pkg +:+ "." +:+ x) false))
                           <$> names)).
  assert (resolve_imports w modpath imports = inr (imports, names, paths)) as Hres.
  { rewrite (resolve_imports_explicit w modpath imports pkg Hne Hpkg), Hiter.
    reflexivity. }
  assert (forall x, x ∈ names ->
            paths !! x = Some (modname_to_modpath w (pkg +:+ "." +:+ x) false)) as Hlook.
  { intros x Hx. unfold paths. rewrite py_dict_comprehension.
    now destruct (decide (x ∈ names)). }
  assert (m ∈ names) as Hin by (apply elem_of_app; right; left).
  assert (from_import w paths use_all m = inl (FailedToLookup m)) as Hturn.
  { apply from_import_unlocated. now rewrite (Hlook m Hin), Hm. }
  destruct (from_imports_loop_failure w paths use_all names m _ Hin Hturn)
    as (pre' & x & post' & e & Hsplit & Hpre' & Hx & Hloop).
  assert (_static_parse_imports w modpath imports use_all = inl e) as Hrun.
  { unfold _static_parse_imports. rewrite Hres. simpl. now rewrite Hloop. }
  exists paths, e. split; [exact Hres|]. split; [exact Hlook|]. split; [exact Hrun|].
  split.
  - destruct (split_at_first_failure
                (fun y => exists entry, from_import w paths use_all y = inr entry)
                pre m post pre' x post' Hsplit Hpre') as [[-> _]|Hxpre].
    + intros [entry Hentry]. congruence.
    + left. congruence.
    + right. eauto.
  - intros Hok.
    pose proof (static_parse_imports_first_failure w modpath imports use_all
                  imports paths pre m post _ Hres Hok Hturn) as Hrun'.
    rewrite Hrun in Hrun'. now injection Hrun'.
Qed.

(** With the list [['sub1', 'nope']] the run ends with the error naming
    [nope]. *)
Lemma unlocated_entry_is_fatal_witness :
  _static_parse_imports Demo.one_locked "/site/pkg" (VNames ["sub1"; "nope"]) true
    = inl (FailedToLookup "nope").
Proof.
  destruct (unlocated_entry_is_fatal Demo.one_locked "/site/pkg" "pkg"
              (VNames ["sub1"; "nope"]) true ["sub1"] [] "nope")
    as (paths & e & _ & _ & Hrun & _).
  - discriminate.
  - reflexivity.
  - reflexivity.
  - reflexivity.
  - intros x Hx. apply list_elem_of_singleton in Hx as ->. vm_compute. eauto.
  - rewrite Hrun. vm_compute in Hrun. now injection Hrun as <-.
Defined.

(** C9.  The turn of a submodule whose source cannot be read raises a read
    error that holds the offending path and the underlying cause, and the run
    that comes to this read ends with that error: it is the result of
    [_static_parse_imports] whenever the turns of the submodules before it
    have passed.  In any case a run over a set that holds such a submodule
    fails and yields no manifest. *)
Theorem unreadable_submodule_is_fatal (w : World) (modpath : string)
    (imports v : static_value) (use_all : bool) (paths : gmap string (option string))
    (pre post : list string) (m sub_modpath : string) (ex : exn) :
  resolve_imports w modpath imports = inr (v, pre ++ m :: post, paths) ->
  paths !! m = Some (Some sub_modpath) ->
  open_read w sub_modpath (if PY2 w then None else Some "utf8") = inl ex ->
  from_import w paths use_all m = inl (ErrorReading sub_modpath ex) /\
  (exists e,
      _static_parse_imports w modpath imports use_all = inl e /\
      (e = ErrorReading sub_modpath ex \/
       exists x, x ∈ pre /\ from_import w paths use_all x = inl e)) /\
  ((forall x, x ∈ pre -> exists entry, from_import w paths use_all x = inr entry) ->
   _static_parse_imports w modpath imports use_all = inl (ErrorReading sub_modpath ex)).
Proof.
  intros Hres Hpath Hread.
  pose proof (from_import_unreadable w paths use_all m sub_modpath ex Hpath Hread)
    as Hturn.
  split; [exact Hturn|]. split.
  - assert (m ∈ pre ++ m :: post) as Hin by (apply elem_of_app; right; left).
    destruct (from_imports_loop_failure w paths use_all _ m _ Hin Hturn)
      as (pre' & x & post' & e & Hsplit & Hpre' & Hx & Hloop).
    exists e. split.
    + unfold _static_parse_imports. rewrite Hres. simpl. now rewrite Hloop.
    + destruct (split_at_first_failure
                  (fun y => exists entry, from_import w paths use_all y = inr entry)
                  pre m post pre' x post' Hsplit Hpre') as [[-> _]|Hxpre].
      * intros [entry Hentry]. congruence.
      * left. congruence.
      * right. eauto.
  - intros Hok.
    exact (static_parse_imports_first_failure w modpath imports use_all
             v paths pre m post _ Hres Hok Hturn).
Qed.

(** Discovery in a package that holds the unreadable [locked] before [sub1] *)
Lemma unreadable_submodule_is_fatal_witness :
  _static_parse_imports Demo.one_locked "/site/pkg" VNone true
    = inl (ErrorReading "/site/pkg/locked.py" (OSError "Permission denied")).
Proof.
  destruct (resolve_imports Demo.one_locked "/site/pkg" VNone)
    as [e|[[v names] paths]] eqn:Hres; [vm_compute in Hres; discriminate Hres|].
  assert (names = [] ++ "locked" :: ["sub1"]) as ->.
  { vm_compute in Hres. now injection Hres as _ <- _. }
  assert (paths !! "locked" = Some (Some "/site/pkg/locked.py")) as Hpath.
  { vm_compute in Hres. injection Hres as _ <-. reflexivity. }
  destruct (unreadable_submodule_is_fatal Demo.one_locked "/site/pkg" VNone v true
              paths [] ["sub1"] "locked" "/site/pkg/locked.py"
              (OSError "Permission denied") Hres Hpath eq_refl) as (_ & _ & H).
  apply H. intros x Hx. now apply elem_of_nil in Hx.
Defined.

(** ** The analyser on literal guards *)

Module TopLevelVisitorFacts.
Import TopLevelVisitor.

Lemma visit_block_cons k s rest :
  visit_block k (s :: rest) =
    Flow (bound (visit k s) ∪ bound (visit_block (known (visit k s)) rest))
         (known (visit_block (known (visit k s)) rest))
         (completes (visit k s) && completes (visit_block (known (visit k s)) rest)).
Proof. reflexivity. Qed.

Lemma known_visit_block_app b1 : forall k b2,
  known (visit_block k (b1 ++ b2)) =
    known (visit_block (known (visit_block k b1)) b2).
Proof.
  induction b1 as [|s b1 IH]; intros k b2; [reflexivity|].
  simpl app. rewrite !visit_block_cons. simpl. apply IH.
Qed.

Lemma bound_visit_block_app b1 : forall k b2,
  bound (visit_block k (b1 ++ b2)) =
    bound (visit_block k b1) ∪ bound (visit_block (known (visit_block k b1)) b2).
Proof.
  induction b1 as [|s b1 IH]; intros k b2.
  - simpl. now rewrite (left_id_L ∅ (∪)).
  - simpl app. rewrite !visit_block_cons. simpl. rewrite IH.
    now rewrite (assoc_L (∪)).
Qed.

Lemma visit_if k test body orelse :
  visit k (SIf test body orelse) =
    match static_truth k test with
    | Some true => taken (visit_block k body)
    | Some false => taken (visit_block k orelse)
    | None =>
        merge (forget (may_bind (SIf test body orelse)) k)
              [visit_block k body; visit_block k orelse]
    end.
Proof. reflexivity. Qed.

Lemma visit_try k body handlers :
  visit k (STry body handlers) =
    merge (forget (may_bind (STry body handlers)) k)
          (visit_block k body
             :: (visit_block (forget (may_bind (STry body handlers)) k) <$> handlers)).
Proof. reflexivity. Qed.

Lemma taken_completes f : completes f = true -> taken f = f.
Proof. unfold taken. now intros ->. Qed.

Lemma bound_taken f : bound (taken f) ⊆ bound f.
Proof. unfold taken. destruct (completes f); simpl; set_solver. Qed.

(** A branch guarded by the literal [True] that can complete is the block of
    its body. *)
Lemma visit_if_true k body orelse :
  completes (visit_block k body) = true ->
  visit k (SIf (ELit LTrue) body orelse) = visit_block k body.
Proof. intros Hc. rewrite visit_if. simpl. now apply taken_completes. Qed.

(** A branch guarded by the literal [False], with no [else], is the empty
    block. *)
Lemma visit_if_false_alone k body :
  visit k (SIf (ELit LFalse) body []) = visit_block k [].
Proof. reflexivity. Qed.

(** A [True] branch reached through guards that are statically false *)
Lemma visit_elif_chain_true k prefix body orelse :
  Forall (fun branch => static_truth k branch.1 = Some false) prefix ->
  completes (visit_block k body) = true ->
  bound (visit k (elif_chain prefix (SIf (ELit LTrue) body orelse)))
    = bound (visit_block k body) /\
  completes (visit k (elif_chain prefix (SIf (ELit LTrue) body orelse))) = true.
Proof.
  intros Hprefix Hc. induction Hprefix as [|[g b] prefix Hg _ [IHb IHc]]; simpl elif_chain.
  - now rewrite visit_if_true.
  - rewrite visit_if. simpl in Hg. rewrite Hg.
    rewrite taken_completes; rewrite visit_block_cons; simpl.
    + rewrite IHb. split; [apply (right_id_L ∅ (∪))|now rewrite IHc].
    + now rewrite IHc.
Qed.

(** Induction on statements, with the blocks inside *)
Lemma stmt_nested_ind (P : stmt -> Prop) :
  (forall targets value, P (SAssign targets value)) ->
  (forall name, P (SDef name)) ->
  (forall name, P (SClass name)) ->
  (forall names, P (SImport names)) ->
  (forall test body orelse,
      Forall P body -> Forall P orelse -> P (SIf test body orelse)) ->
  (forall body handlers,
      Forall P body -> Forall (Forall P) handlers -> P (STry body handlers)) ->
  P SRaise -> P SOther ->
  forall s, P s.
Proof.
  intros HAssign HDef HClass HImport HIf HTry HRaise HOther.
  fix IH 1. intros [targets value|name|name|names|test body orelse|body handlers| |];
    [apply HAssign|apply HDef|apply HClass|apply HImport| | |exact HRaise|exact HOther].
  - apply HIf.
    + induction body as [|s body IHbody]; constructor; [apply IH|exact IHbody].
    + induction orelse as [|s orelse IHorelse]; constructor; [apply IH|exact IHorelse].
  - apply HTry.
    + induction body as [|s body IHbody]; constructor; [apply IH|exact IHbody].
    + induction handlers as [|h handlers IHhandlers]; constructor; [|exact IHhandlers].
      induction h as [|s h IHh]; constructor; [apply IH|exact IHh].
Qed.

Lemma common_bound branches names :
  common branches = Some names -> exists f, f ∈ branches /\ names ⊆ bound f.
Proof.
  revert names. induction branches as [|f branches IH]; intros names; simpl; [easy|].
  destruct (completes f).
  - destruct (common branches) as [names'|]; intros Hn; injection Hn as <-.
    + exists f. split; [left|apply intersection_subseteq_l].
    + exists f. split; [left|reflexivity].
  - intros H. destruct (IH names H) as (f' & Hin & Hsub).
    exists f'. split; [now right|exact Hsub].
Qed.

Lemma bound_merge k branches (X : gset string) :
  (forall f, f ∈ branches -> bound f ⊆ X) -> bound (merge k branches) ⊆ X.
Proof.
  intros Hall. unfold merge.
  destruct (common branches) as [names|] eqn:Hc; simpl; [|set_solver].
  apply common_bound in Hc as (f & Hin & Hsub). specialize (Hall f Hin). set_solver.
Qed.

Lemma bound_visit_block_live block :
  Forall (fun s => forall k, bound (visit k s) ⊆ may_bind_live s) block ->
  forall k, bound (visit_block k block) ⊆ ⋃ (may_bind_live <$> block).
Proof.
  induction 1 as [|s block Hs _ IH]; intros k.
  - simpl. set_solver.
  - rewrite visit_block_cons, fmap_cons. simpl.
    apply union_mono; [apply Hs|apply IH].
Qed.

(** A statement binds for certain only names that it may bind outside the
    branches guarded by the literal [False]. *)
Lemma bound_visit_live s : forall k, bound (visit k s) ⊆ may_bind_live s.
Proof.
  induction s as [targets value|name|name|names|test body orelse Hbody Horelse
                 |body handlers Hbody Hhandlers| |] using stmt_nested_ind;
    intros k; try (simpl; set_solver).
  - pose proof (bound_visit_block_live body Hbody) as Hb.
    pose proof (bound_visit_block_live orelse Horelse) as Ho.
    assert (bound (visit k (SIf test body orelse))
              ⊆ ⋃ (may_bind_live <$> body) ∪ ⋃ (may_bind_live <$> orelse)) as Hany.
    { rewrite visit_if. destruct (static_truth k test) as [[]|].
      - pose proof (bound_taken (visit_block k body)). specialize (Hb k). set_solver.
      - pose proof (bound_taken (visit_block k orelse)). specialize (Ho k). set_solver.
      - apply bound_merge. intros f Hf.
        apply elem_of_cons in Hf as [->|Hf]; [specialize (Hb k); set_solver|].
        apply list_elem_of_singleton in Hf as ->. specialize (Ho k). set_solver. }
    assert (bound (visit k (SIf (ELit LFalse) body orelse))
              ⊆ ⋃ (may_bind_live <$> orelse)) as Hfalse.
    { rewrite visit_if. simpl.
      pose proof (bound_taken (visit_block k orelse)). specialize (Ho k). set_solver. }
    destruct test as [[]| | | | | | | |]; simpl may_bind_live;
      first [exact Hfalse|exact Hany].
  - rewrite visit_try. apply bound_merge. intros f Hf.
    pose proof (bound_visit_block_live body Hbody) as Hb.
    apply elem_of_cons in Hf as [->|Hf].
    + specialize (Hb k). simpl. set_solver.
    + apply list_elem_of_fmap in Hf as (h & -> & Hh).
      apply list_elem_of_lookup in Hh as [i Hi].
      pose proof (Forall_lookup_1 _ _ _ _ Hhandlers Hi) as Hhi.
      pose proof (bound_visit_block_live h Hhi
                    (forget (may_bind (STry body handlers)) k)) as Hbh.
      assert (⋃ (may_bind_live <$> h)
                ⊆ ⋃ ((fun h => ⋃ (may_bind_live <$> h)) <$> handlers)) as Hsub.
      { intros x Hx. apply elem_of_union_list.
        exists (⋃ (may_bind_live <$> h)). split; [|exact Hx].
        apply list_elem_of_fmap. exists h. split; [reflexivity|].
        apply list_elem_of_lookup. eauto. }
      simpl. set_solver.
Qed.

(** An assignment in a block binds its targets in the block. *)
Lemma assign_bound_in_block targets value block : forall k,
  SAssign targets value ∈ block ->
  forall n, n ∈ targets -> n ∈ bound (visit_block k block).
Proof.
  induction block as [|s block IH]; intros k Hin n Hn; [now apply elem_of_nil in Hin|].
  rewrite visit_block_cons. simpl. apply elem_of_union.
  apply elem_of_cons in Hin as [<-|Hin].
  - left. simpl. now apply elem_of_list_to_set.
  - right. now apply IH.
Qed.

Lemma elem_of_parse n source :
  n ∈ parse source <-> n ∈ bound (visit_block ∅ source).
Proof. unfold parse. apply elem_of_elements. Qed.

(** On the module of the test package the analyser finds the fourteen
    [good_attr_NN] names and none of the [bad_attr] names, which is what
    [check_dummy_root_init] asserts of the generated text. *)
Example parse_submod1 :
  PyStr.sorted (parse Demo.submod1) =
    ["attr1"; "attr2"; "class1"; "flag1"; "flag2"; "flag3"; "func1";
     "good_attr_01"; "good_attr_02"; "good_attr_03"; "good_attr_04";
     "good_attr_05"; "good_attr_06"; "good_attr_07"; "good_attr_08";
     "good_attr_09"; "good_attr_10"; "good_attr_11"; "good_attr_12";
     "good_attr_13"; "good_attr_14"; "six"; "sys"].
Proof. vm_compute. reflexivity. Qed.

End TopLevelVisitorFacts.

(** C1, as stated, fails in the analyser modelled from the specification, as
    the test package expects it to: in the chain
    [if False: ... / elif (1, 2): good_attr_11 = 1 / elif True: bad_attr_true8 = 1]
    of [tests/test_with_dummy.py] the name [bad_attr_true8] is bound in a
    branch guarded by the literal [True] and is not among the always-bound
    names, the branch before it being always taken; and a branch guarded by
    [True] that ends in [raise] contributes nothing. *)
Lemma true_guard_is_not_always_bound :
  TopLevelVisitor.parse Demo.true_after_taken = ["good_attr_11"] /\
  TopLevelVisitor.parse Demo.true_raises = [].
Proof. split; vm_compute; reflexivity. Qed.

(** C1, amended.  In the analyser modelled from the specification: when a
    branch of a top-level conditional is guarded by the literal [True], every
    guard before it in the chain is statically false, and the branch does not
    unconditionally raise, the names it binds, and so the targets of the
    assignments in it, are among the always-bound names of the module.  A
    name is always-bound only if some statement outside the branches guarded
    by the literal [False] may bind it, and a top-level [if False:] without
    [else] leaves the always-bound names as they are without it.  The module
    [if True: a = 1] and [if False: b = 1], with no [__all__] found in it, has
    the export list [['a']]. *)
Theorem literal_guards :
  (forall (pre : list stmt) (prefix : list (expr * list stmt))
          (body orelse post : list stmt) (n : string),
      Forall (fun branch =>
                TopLevelVisitor.static_truth
                  (TopLevelVisitor.known (TopLevelVisitor.visit_block ∅ pre)) branch.1
                = Some false) prefix ->
      TopLevelVisitor.completes
        (TopLevelVisitor.visit_block
           (TopLevelVisitor.known (TopLevelVisitor.visit_block ∅ pre)) body) = true ->
      n ∈ TopLevelVisitor.bound
            (TopLevelVisitor.visit_block
               (TopLevelVisitor.known (TopLevelVisitor.visit_block ∅ pre)) body) ->
      n ∈ TopLevelVisitor.parse
            (pre ++ TopLevelVisitor.elif_chain prefix (SIf (ELit LTrue) body orelse)
                 :: post)) /\
  (forall (pre : list stmt) (prefix : list (expr * list stmt))
          (body orelse post : list stmt) targets value (n : string),
      Forall (fun branch =>
                TopLevelVisitor.static_truth
                  (TopLevelVisitor.known (TopLevelVisitor.visit_block ∅ pre)) branch.1
                = Some false) prefix ->
      TopLevelVisitor.completes
        (TopLevelVisitor.visit_block
           (TopLevelVisitor.known (TopLevelVisitor.visit_block ∅ pre)) body) = true ->
      SAssign targets value ∈ body -> n ∈ targets ->
      n ∈ TopLevelVisitor.parse
            (pre ++ TopLevelVisitor.elif_chain prefix (SIf (ELit LTrue) body orelse)
                 :: post)) /\
  (forall (source : source) (n : string),
      n ∈ TopLevelVisitor.parse source ->
      n ∈ ⋃ (TopLevelVisitor.may_bind_live <$> source)) /\
  (forall (pre body post : list stmt),
      TopLevelVisitor.parse (pre ++ SIf (ELit LFalse) body [] :: post) =
      TopLevelVisitor.parse (pre ++ post)) /\
  (forall (w : World) (use_all : bool),
      attrnames w Demo.true_false = TopLevelVisitor.parse Demo.true_false ->
      (exists key, parse_static_value w "__all__" Demo.true_false = inl (NameError key)) ->
      "a" ∉ builtin_names w ->
      export_list w use_all Demo.true_false = inr ["a"]).
Proof.
  assert (forall (pre : list stmt) (prefix : list (expr * list stmt))
          (body orelse post : list stmt) (n : string),
      Forall (fun branch =>
                TopLevelVisitor.static_truth
                  (TopLevelVisitor.known (TopLevelVisitor.visit_block ∅ pre)) branch.1
                = Some false) prefix ->
      TopLevelVisitor.completes
        (TopLevelVisitor.visit_block
           (TopLevelVisitor.known (TopLevelVisitor.visit_block ∅ pre)) body) = true ->
      n ∈ TopLevelVisitor.bound
            (TopLevelVisitor.visit_block
               (TopLevelVisitor.known (TopLevelVisitor.visit_block ∅ pre)) body) ->
      n ∈ TopLevelVisitor.parse
            (pre ++ TopLevelVisitor.elif_chain prefix (SIf (ELit LTrue) body orelse)
                 :: post)) as Htrue.
  { intros pre prefix body orelse post n Hprefix Hc Hn.
    apply TopLevelVisitorFacts.elem_of_parse.
    rewrite TopLevelVisitorFacts.bound_visit_block_app,
      TopLevelVisitorFacts.visit_block_cons.
    destruct (TopLevelVisitorFacts.visit_elif_chain_true _ prefix body orelse Hprefix Hc)
      as [Hb _].
    simpl. apply elem_of_union. right. apply elem_of_union. left.
    now rewrite Hb. }
  split; [exact Htrue|]. split; [|split; [|split]].
  - intros pre prefix body orelse post targets value n Hprefix Hc Hin Hn.
    apply Htrue; [exact Hprefix|exact Hc|].
    now apply (TopLevelVisitorFacts.assign_bound_in_block targets value).
  - intros source n Hn%TopLevelVisitorFacts.elem_of_parse. revert Hn.
    apply TopLevelVisitorFacts.bound_visit_block_live, Forall_forall.
    intros s _. apply TopLevelVisitorFacts.bound_visit_live.
  - intros pre body post. unfold TopLevelVisitor.parse. f_equal.
    rewrite !TopLevelVisitorFacts.bound_visit_block_app,
      TopLevelVisitorFacts.visit_block_cons,
      TopLevelVisitorFacts.visit_if_false_alone.
    simpl. now rewrite (left_id_L ∅ (∪)).
  - intros w use_all Hattr Hnone Hbuiltin.
    rewrite (export_list_declared w use_all _ VNone);
      [|apply declared_all_absent; right; now left].
    unfold derived_attrs. rewrite Hattr.
    assert (TopLevelVisitor.parse Demo.true_false = ["a"]) as -> by (vm_compute; reflexivity).
    rewrite filter_cons_True; [reflexivity|]. now split.
Qed.

(** The chain [if False: ... / elif True: good_attr_06 = None / else: ...] of
    the test package, and the module of the two conditionals *)
Lemma literal_guards_witness :
  "good_attr_06" ∈ TopLevelVisitor.parse
    [SIf (ELit LFalse) [Demo.none "bad_attr_elif_True3_0"]
       [SIf (ELit LTrue) [Demo.none "good_attr_06"]
          [Demo.none "bad_attr_elif_True3_1"]]] /\
  export_list Demo.three_subs true Demo.true_false = inr ["a"].
Proof.
  destruct literal_guards as (_ & Htrue & _ & _ & Hrun).
  split.
  - apply (Htrue [] [(ELit LFalse, [Demo.none "bad_attr_elif_True3_0"])]
             [Demo.none "good_attr_06"] [Demo.none "bad_attr_elif_True3_1"] []
             ["good_attr_06"] (ELit LNone) "good_attr_06").
    + repeat constructor.
    + reflexivity.
    + apply list_elem_of_here.
    + apply list_elem_of_here.
  - apply Hrun.
    + reflexivity.
    + exists "__all__". reflexivity.
    + vm_compute. intros H.
      repeat (apply elem_of_cons in H as [H|H]; [discriminate H|]).
      now apply elem_of_nil in H.
Defined.

(** * Further properties of the module *)

(** ** One turn of the loop, inverted *)

Section turn_facts.
Context (w : World).
Implicit Types (paths : gmap string (option string)) (names : list string).

Lemma from_import_inr paths use_all rel entry :
  from_import w paths use_all rel = inr entry <-> turn_passes w paths use_all rel entry.
Proof.
  unfold from_import, turn_passes, read_source. split.
  - destruct (paths !! rel) as [[p|]|]; try easy.
    destruct (open_read w p _) as [ex|src] eqn:Hread; simpl; [easy|].
    destruct (export_list w use_all src) as [e|attrs] eqn:Hexp; simpl; [easy|].
    intros [= <-]. exists p, src. now rewrite Hread, Hexp.
  - intros (p & src & -> & -> & Hexp & <-). simpl. rewrite Hexp. simpl.
    now destruct entry.
Qed.

Lemma from_imports_loop_inr paths use_all names l :
  from_imports_loop w paths use_all names = inr l <->
  Forall2 (fun m entry => from_import w paths use_all m = inr entry) names l.
Proof.
  split.
  - revert l. induction names as [|m names IH]; intros l; simpl.
    + intros [= <-]. constructor.
    + destruct (from_import w paths use_all m) as [e|entry] eqn:E; simpl; [easy|].
      destruct (from_imports_loop w paths use_all names) as [e|more]; simpl; [easy|].
      intros [= <-]. constructor; [exact E|]. now apply IH.
  - induction 1 as [|m entry names l Hm _ IH]; simpl; [reflexivity|].
    rewrite Hm. simpl. now rewrite IH.
Qed.

Lemma export_list_Sorted use_all source l :
  export_list w use_all source = inr l -> Sorted PyStr.le l.
Proof.
  unfold export_list.
  destruct (declared_all w use_all source) as [e|v]; simpl; [easy|].
  destruct v; simpl; try easy; intros [= <-]; apply PyStrFacts.sorted_Sorted.
Qed.

(** Every name the loop ranges over is a key of the dictionary, so the lookup
    [import_paths[rel_modname]] cannot miss. *)
Lemma resolve_imports_keys modpath imports v names paths :
  resolve_imports w modpath imports = inr (v, names, paths) ->
  forall m, m ∈ names -> is_Some (paths !! m).
Proof.
  intros Hres m Hm. destruct imports as [|b|z|s|xs].
  { unfold resolve_imports in Hres.
    destruct (_find_local_submodules w modpath); simpl in Hres; [easy|].
    injection Hres as _ <- <-.
    now apply PyStrFacts.elem_of_sorted, elem_of_py_keys in Hm. }
  all: unfold resolve_imports in Hres;
    destruct (modpath_to_modname w modpath None) as [pkg|]; [|easy];
    simpl in Hres; try discriminate Hres;
    injection Hres as _ <- <-;
    rewrite py_dict_comprehension; destruct (decide (m ∈ _)); eauto; contradiction.
Qed.

End turn_facts.

(** X1.  In a manifest that is returned, every list of exported names is in
    ascending order, whether it was declared or derived. *)
Theorem manifest_export_lists_sorted (w : World) (modpath : string)
    (imports : static_value) (use_all : bool) (r : parsed) :
  _static_parse_imports w modpath imports use_all = inr r ->
  forall entry, entry ∈ ret_from_imports r -> Sorted PyStr.le entry.2.
Proof.
  intros (names & paths & _ & Hloop & _)%static_parse_imports_inv entry Hin.
  apply from_imports_loop_inr in Hloop.
  apply list_elem_of_lookup in Hin as [i Hi].
  destruct (Forall2_lookup_r _ _ _ _ _ Hloop Hi) as (m & _ & Hturn).
  apply from_import_inr in Hturn as (p & src & _ & _ & Hexp & _).
  now apply export_list_Sorted in Hexp.
Qed.

Lemma manifest_export_lists_sorted_witness :
  Sorted PyStr.le ["_y"; "print"; "x"].
Proof.
  apply (manifest_export_lists_sorted Demo.declares_all "/site/pkg" VNone true
           (Parsed (Some "pkg") (VNames ["sub1"]) [("sub1", ["_y"; "print"; "x"])])
           eq_refl ("sub1", ["_y"; "print"; "x"])).
  apply list_elem_of_here.
Defined.

(** X2.  A manifest is returned only if every submodule visited was located
    and read and its export list computed: the entries pair the names visited,
    in order, with the export lists of the sources read at the paths the
    dictionary holds for them; the first component of the result is the
    package name the locator gives. *)
Theorem manifest_entries_sound (w : World) (modpath : string)
    (imports : static_value) (use_all : bool) (r : parsed) :
  _static_parse_imports w modpath imports use_all = inr r ->
  ret_modname r = modpath_to_modname w modpath None /\
  exists names paths,
    resolve_imports w modpath imports = inr (ret_imports r, names, paths) /\
    Forall2 (turn_passes w paths use_all) names (ret_from_imports r).
Proof.
  intros Hrun. split.
  - unfold _static_parse_imports in Hrun.
    destruct (resolve_imports w modpath imports) as [e|[[v names] paths]];
      simpl in Hrun; [easy|].
    destruct (from_imports_loop w paths use_all names); simpl in Hrun; [easy|].
    now injection Hrun as <-.
  - apply static_parse_imports_inv in Hrun as (names & paths & Hres & Hloop & _).
    exists names, paths. split; [exact Hres|].
    apply from_imports_loop_inr in Hloop.
    eapply Forall2_impl; [exact Hloop|]. intros m entry. apply from_import_inr.
Qed.

Lemma manifest_entries_sound_witness :
  exists names paths,
    resolve_imports Demo.three_subs "/site/pkg" VNone
      = inr (VNames ["sub1"; "sub2"], names, paths) /\
    Forall2 (turn_passes Demo.three_subs paths true) names
            [("sub1", ["a"]); ("sub2", ["y"])].
Proof.
  exact (proj2 (manifest_entries_sound Demo.three_subs "/site/pkg" VNone true
                  (Parsed (Some "pkg") (VNames ["sub1"; "sub2"])
                          [("sub1", ["a"]); ("sub2", ["y"])]) eq_refl)).
Defined.

(** X3.  Conversely, when every name to visit has a path, the source at that
    path can be read and its export list can be computed, a manifest is
    returned, with one entry per name in the order of the names. *)
Theorem manifest_is_returned (w : World) (modpath : string)
    (imports v : static_value) (use_all : bool) (names : list string)
    (paths : gmap string (option string)) :
  resolve_imports w modpath imports = inr (v, names, paths) ->
  Forall (fun m => exists sub_modpath source attrs,
            paths !! m = Some (Some sub_modpath) /\
            open_read w sub_modpath (if PY2 w then None else Some "utf8") = inr source /\
            export_list w use_all source = inr attrs) names ->
  exists r,
    _static_parse_imports w modpath imports use_all = inr r /\
    ret_imports r = v /\
    (ret_from_imports r).*1 = names.
Proof.
  intros Hres Hall.
  assert (exists l, from_imports_loop w paths use_all names = inr l) as [l Hloop].
  { clear Hres. induction Hall as [|m names (p & src & attrs & Hp & Hread & Hexp) _ [l IH]].
    - now exists [].
    - exists ((m, attrs) :: l). simpl.
      assert (from_import w paths use_all m = inr (m, attrs)) as ->.
      { apply from_import_inr. exists p, src. eauto. }
      simpl. now rewrite IH. }
  exists (Parsed (modpath_to_modname w modpath None) v l).
  split; [|split; [reflexivity|]].
  - unfold _static_parse_imports. rewrite Hres. simpl. now rewrite Hloop.
  - simpl. now apply from_imports_loop_names in Hloop.
Qed.

Lemma manifest_is_returned_witness :
  exists r,
    _static_parse_imports Demo.three_subs "/site/pkg" (VNames ["sub2"]) false = inr r /\
    ret_imports r = VNames ["sub2"] /\
    (ret_from_imports r).*1 = ["sub2"].
Proof.
  apply (manifest_is_returned Demo.three_subs "/site/pkg" (VNames ["sub2"])
           (VNames ["sub2"]) false ["sub2"]
           (py_dict [("sub2", Some "/site/pkg/sub2.py")]) eq_refl).
  repeat constructor.
  exists "/site/pkg/sub2.py", [Demo.assign "y"; Demo.assign "_hidden"; SDef "print"], ["y"].
  repeat split; reflexivity.
Defined.

(** ** The flag [use_all] *)

Section use_all_facts.
Context (w : World) (lookup : string -> source -> exn + static_value).

Lemma export_list_without_all source :
  export_list (with_parse_static_value w lookup) false source =
  export_list w false source.
Proof. reflexivity. Qed.

Lemma from_imports_loop_without_all paths names :
  from_imports_loop (with_parse_static_value w lookup) paths false names =
  from_imports_loop w paths false names.
Proof.
  induction names as [|m names IH]; [reflexivity|].
  simpl. rewrite IH. reflexivity.
Qed.

Lemma resolve_imports_same_lookup modpath imports :
  resolve_imports (with_parse_static_value w lookup) modpath imports =
  resolve_imports w modpath imports.
Proof. reflexivity. Qed.

End use_all_facts.

(** X4.  With [use_all] false the variable [__all__] plays no part: whatever
    the static lookup would answer, and even if it would raise,
    [_static_parse_imports] gives the same result. *)
Theorem use_all_false_ignores_lookup (w : World)
    (lookup : string -> source -> exn + static_value)
    (modpath : string) (imports : static_value) :
  _static_parse_imports (with_parse_static_value w lookup) modpath imports false =
  _static_parse_imports w modpath imports false.
Proof.
  unfold _static_parse_imports. rewrite resolve_imports_same_lookup.
  destruct (resolve_imports w modpath imports) as [e|[[v names] paths]];
    [reflexivity|].
  cbn [mbind exn_bind]. rewrite from_imports_loop_without_all. reflexivity.
Qed.

(** ** The aggregator file *)

(** X5.  When the package has no [__init__.py], no file is read to find a
    list of submodules: nothing is declared, and [static_init] called without
    a list discovers the submodules. *)
Theorem missing_aggregator_means_discovery (w : World)
    (modpath_or_name modpath : string) (use_all : bool) :
  _rectify_to_modpath w modpath_or_name = inr modpath ->
  path_exists w (PyStr.join modpath "__init__.py") = false ->
  parse_submodule_definition w modpath = inr VNone /\
  static_init w modpath_or_name VNone use_all =
    _static_parse_imports w modpath VNone use_all.
Proof.
  intros Hrect Hex.
  assert (parse_submodule_definition w modpath = inr VNone) as Hdef.
  { unfold parse_submodule_definition. now rewrite Hex. }
  split; [exact Hdef|]. now apply static_init_declared.
Qed.

Lemma missing_aggregator_means_discovery_witness :
  static_init Cases.no_init "pkg" VNone true =
    inr (Parsed (Some "pkg") (VNames ["sub1"]) [("sub1", ["a"])]).
Proof.
  destruct (missing_aggregator_means_discovery Cases.no_init "pkg" "/site/pkg" true
              eq_refl eq_refl) as (_ & ->).
  reflexivity.
Defined.

(** X6.  When [__init__.py] exists and cannot be read, [static_init] called
    without a list raises the exception of the read as it is, not wrapped in a
    read error; called with a list it does not open the file and is not
    affected. *)
Theorem unreadable_aggregator (w : World) (modpath_or_name modpath : string)
    (use_all : bool) (ex : exn) :
  _rectify_to_modpath w modpath_or_name = inr modpath ->
  path_exists w (PyStr.join modpath "__init__.py") = true ->
  open_read w (PyStr.join modpath "__init__.py") None = inl ex ->
  static_init w modpath_or_name VNone use_all = inl ex /\
  (forall imports, imports <> VNone ->
     static_init w modpath_or_name imports use_all =
       _static_parse_imports w modpath imports use_all).
Proof.
  intros Hrect Hex Hread. split.
  - unfold static_init, parse_submodule_definition.
    rewrite Hrect. simpl. now rewrite Hex, Hread.
  - intros imports Hne. now apply static_init_given.
Qed.

Lemma unreadable_aggregator_witness :
  static_init Cases.locked_init "pkg" VNone true = inl (OSError "Permission denied") /\
  static_init Cases.locked_init "pkg" (VNames ["sub1"]) true =
    inr (Parsed (Some "pkg") (VNames ["sub1"]) [("sub1", ["a"])]).
Proof.
  destruct (unreadable_aggregator Cases.locked_init "pkg" "/site/pkg" true
              (OSError "Permission denied") eq_refl eq_refl eq_refl) as [H1 H2].
  split; [exact H1|]. rewrite H2; [reflexivity|discriminate].
Defined.

(** X7.  Declaring a list of submodules in the aggregator file has the effect
    of passing that list to [static_init]. *)
Theorem declared_list_is_like_given_list (w : World)
    (modpath_or_name modpath : string) (declared : static_value) (use_all : bool) :
  _rectify_to_modpath w modpath_or_name = inr modpath ->
  parse_submodule_definition w modpath = inr declared ->
  declared <> VNone ->
  static_init w modpath_or_name VNone use_all =
    static_init w modpath_or_name declared use_all.
Proof.
  intros Hrect Hdef Hne.
  rewrite (static_init_declared w _ modpath declared use_all Hrect Hdef).
  now rewrite (static_init_given w _ modpath declared use_all Hrect Hne).
Qed.

Lemma declared_list_is_like_given_list_witness :
  static_init Cases.declares_sub2 "pkg" VNone true =
    static_init Cases.declares_sub2 "pkg" (VNames ["sub2"]) true.
Proof.
  apply (declared_list_is_like_given_list Cases.declares_sub2 "pkg" "/site/pkg"
           (VNames ["sub2"]) true eq_refl eq_refl).
  discriminate.
Defined.

(** X8.  The lookup of a list of submodules never lets the "no such variable"
    error out: once the aggregator file has been read, an exception of
    [parse_submodule_definition] is an exception of one of the two lookups
    and is no [NameError]; likewise an exception of the export list of a
    source is no [NameError]. *)
Theorem name_error_never_escapes (w : World) :
  (forall modpath source e,
      open_read w (PyStr.join modpath "__init__.py") None = inr source ->
      parse_submodule_definition w modpath = inl e ->
      is_NameError e = false /\
      (parse_static_value w "__submodules__" source = inl e \/
       parse_static_value w "__SUBMODULES__" source = inl e)) /\
  (forall use_all source e,
      export_list w use_all source = inl e -> is_NameError e = false).
Proof.
  split.
  - intros modpath source e Hread. unfold parse_submodule_definition.
    destruct (path_exists w _); [|easy]. rewrite Hread. simpl.
    destruct (parse_static_value w "__submodules__" source) as [e1|v1]; [|easy].
    destruct (is_NameError e1) eqn:H1.
    + destruct (parse_static_value w "__SUBMODULES__" source) as [e2|v2]; [|easy].
      destruct (is_NameError e2) eqn:H2; [easy|]. intros [= <-]. auto.
    + intros [= <-]. auto.
  - intros use_all source e. unfold export_list, declared_all.
    destruct use_all; simpl.
    + destruct (parse_static_value w "__all__" source) as [e1|v]; simpl.
      * destruct (is_NameError e1) eqn:H1; simpl; [easy|]. now intros [= <-].
      * destruct v; simpl; try easy; now intros [= <-].
    + easy.
Qed.

Lemma name_error_never_escapes_witness :
  is_NameError (TypeError "'int' object is not iterable") = false.
Proof.
  destruct (name_error_never_escapes Demo.all_is_int) as [_ H].
  exact (H true [SAssign ["__all__"] (ELit (LInt 5)); Demo.assign "a"] _ eq_refl).
Defined.

(** ** Why a run fails *)

Lemma from_imports_loop_inl (w : World) paths use_all names e :
  from_imports_loop w paths use_all names = inl e ->
  exists m, m ∈ names /\ from_import w paths use_all m = inl e.
Proof.
  induction names as [|m names IH]; simpl; [easy|].
  destruct (from_import w paths use_all m) as [e'|entry] eqn:E; simpl.
  - intros [= <-]. exists m. split; [left|exact E].
  - destruct (from_imports_loop w paths use_all names) as [e'|more]; simpl; [|easy].
    intros [= <-]. destruct (IH eq_refl) as (x & Hx & Hturn).
    exists x. split; [now right|exact Hturn].
Qed.

(** X9.  Every failure of [_static_parse_imports] has one of four causes: the
    submodules to visit could not be determined; an entry of a given list
    could not be located (never a discovered submodule); a source could not
    be read, which is reported with its path and cause; or the export list
    of a source that was read could not be computed.  In particular the
    dictionary lookup of the loop never misses. *)
Theorem failure_causes (w : World) (modpath : string) (imports : static_value)
    (use_all : bool) (e : exn) :
  _static_parse_imports w modpath imports use_all = inl e ->
  resolve_imports w modpath imports = inl e \/
  exists v names paths m,
    resolve_imports w modpath imports = inr (v, names, paths) /\ m ∈ names /\
    ((paths !! m = Some None /\ e = FailedToLookup m /\ imports <> VNone) \/
     (exists sub_modpath ex,
         paths !! m = Some (Some sub_modpath) /\
         open_read w sub_modpath (if PY2 w then None else Some "utf8") = inl ex /\
         e = ErrorReading sub_modpath ex) \/
     (exists sub_modpath source,
         paths !! m = Some (Some sub_modpath) /\
         open_read w sub_modpath (if PY2 w then None else Some "utf8") = inr source /\
         export_list w use_all source = inl e)).
Proof.
  unfold _static_parse_imports.
  destruct (resolve_imports w modpath imports) as [e'|[[v names] paths]] eqn:Hres;
    simpl; [intros [= <-]; now left|].
  destruct (from_imports_loop w paths use_all names) as [e1|l] eqn:Hloop; simpl; [|easy].
  intros [= <-]. right.
  apply from_imports_loop_inl in Hloop as (m & Hm & Hturn).
  exists v, names, paths, m. split; [reflexivity|]. split; [exact Hm|].
  destruct (resolve_imports_keys w _ _ _ _ _ Hres m Hm) as [o Ho].
  unfold from_import, read_source in Hturn. rewrite Ho in Hturn.
  destruct o as [p|].
  - right.
    destruct (open_read w p _) as [ex|src] eqn:Hread; simpl in Hturn.
    + left. injection Hturn as <-. eauto.
    + right. exists p, src.
      destruct (export_list w use_all src) as [e2|attrs] eqn:Hexp;
        simpl in Hturn; [|easy].
      injection Hturn as <-. repeat split; easy.
  - left. injection Hturn as <-. repeat split; try easy.
    intros ->. apply resolve_imports_discovery in Hres as (found & _ & _ & _ & _ & _ & H).
    destruct (H m None Ho) as (p & [=] & _).
Qed.

Lemma failure_causes_witness :
  resolve_imports Demo.one_locked "/site/pkg" VNone
    = inl (ErrorReading "/site/pkg/locked.py" (OSError "Permission denied")) \/
  exists v names paths m,
    resolve_imports Demo.one_locked "/site/pkg" VNone = inr (v, names, paths) /\
    m ∈ names /\
    ((paths !! m = Some None /\
      ErrorReading "/site/pkg/locked.py" (OSError "Permission denied") = FailedToLookup m /\
      VNone <> VNone) \/
     (exists sub_modpath ex,
         paths !! m = Some (Some sub_modpath) /\
         open_read Demo.one_locked sub_modpath (Some "utf8") = inl ex /\
         ErrorReading "/site/pkg/locked.py" (OSError "Permission denied")
           = ErrorReading sub_modpath ex) \/
     (exists sub_modpath source,
         paths !! m = Some (Some sub_modpath) /\
         open_read Demo.one_locked sub_modpath (Some "utf8") = inr source /\
         export_list Demo.one_locked true source
           = inl (ErrorReading "/site/pkg/locked.py" (OSError "Permission denied")))).
Proof.
  exact (failure_causes Demo.one_locked "/site/pkg" VNone true _ eq_refl).
Defined.

(** X10.  For a package the locator cannot name, a run with a list of
    submodules raises the assertion error before the list is looked at, even a
    list that cannot be iterated, and a run without a list raises "cannot
    import" with the path. *)
Theorem unnamed_package_fails (w : World) (modpath : string) (use_all : bool) :
  modpath_to_modname w modpath None = None ->
  (forall imports, imports <> VNone ->
     _static_parse_imports w modpath imports use_all = inl ModnameIsNone) /\
  _static_parse_imports w modpath VNone use_all = inl (CannotImport modpath).
Proof.
  intros Hname. split.
  - intros imports Hne. unfold _static_parse_imports, resolve_imports.
    rewrite Hname. now destruct imports.
  - unfold _static_parse_imports, resolve_imports, _find_local_submodules.
    now rewrite Hname.
Qed.

Lemma unnamed_package_fails_witness :
  _static_parse_imports Cases.nameless "x" (VInt 3) true = inl ModnameIsNone /\
  _static_parse_imports Cases.nameless "x" VNone true = inl (CannotImport "x").
Proof.
  destruct (unnamed_package_fails Cases.nameless "x" true eq_refl) as [H1 H2].
  split; [apply H1; discriminate|exact H2].
Defined.

(** X11.  An empty set of submodules gives an empty manifest and is no error:
    the empty list given as [imports] is not taken for a missing list, so
    nothing is discovered; and a package in which discovery finds nothing
    yields the empty manifest as well. *)
Theorem empty_imports_empty_manifest (w : World) (modpath pkg : string)
    (use_all : bool) :
  modpath_to_modname w modpath None = Some pkg ->
  _static_parse_imports w modpath (VNames []) use_all
    = inr (Parsed (Some pkg) (VNames []) []) /\
  (_find_local_submodules w modpath = inr [] ->
   _static_parse_imports w modpath VNone use_all
     = inr (Parsed (Some pkg) (VNames []) [])).
Proof.
  intros Hname. split.
  - unfold _static_parse_imports, resolve_imports. now rewrite Hname.
  - intros Hfound. unfold _static_parse_imports, resolve_imports.
    rewrite Hfound, Hname. simpl. unfold py_dict, py_keys. simpl.
    rewrite map_to_list_empty. reflexivity.
Qed.

Lemma empty_imports_empty_manifest_witness :
  _static_parse_imports Demo.three_subs "/site/pkg" (VNames []) true
    = inr (Parsed (Some "pkg") (VNames []) []).
Proof.
  exact (proj1 (empty_imports_empty_manifest Demo.three_subs "/site/pkg" "pkg" true
                  eq_refl)).
Defined.

(** X12.  [_rectify_to_modpath] fails in one way only: the argument is no
    existing path and no name the locator resolves, and the error carries the
    argument; [static_init] then fails with that error whatever its other
    arguments. *)
Theorem rectify_fails_on_unknown_only (w : World) (modpath_or_name : string) :
  (forall e,
      _rectify_to_modpath w modpath_or_name = inl e <->
      e = InvalidModule modpath_or_name /\
      path_exists w modpath_or_name = false /\
      modname_to_modpath w modpath_or_name true = None) /\
  (path_exists w modpath_or_name = false ->
   modname_to_modpath w modpath_or_name true = None ->
   forall imports use_all,
     static_init w modpath_or_name imports use_all = inl (InvalidModule modpath_or_name)).
Proof.
  split.
  - intros e. unfold _rectify_to_modpath.
    destruct (path_exists w modpath_or_name); [split; [easy|intros (_ & [=] & _)]|].
    destruct (modname_to_modpath w modpath_or_name true);
      [split; [easy|intros (_ & _ & [=])]|].
    split; [intros [= <-]; auto|now intros (-> & _)].
  - intros Hex Hname imports use_all. unfold static_init, _rectify_to_modpath.
    now rewrite Hex, Hname.
Qed.

Lemma rectify_fails_on_unknown_only_witness :
  static_init Demo.three_subs "nowhere" VNone true = inl (InvalidModule "nowhere").
Proof.
  destruct (rectify_fails_on_unknown_only Demo.three_subs "nowhere") as [_ H].
  apply H; reflexivity.
Defined.

(** ** Discovery *)

Section discovery_facts.
Context (w : World).

Lemma local_submodules_loop_sublist pkgname root children found :
  local_submodules_loop w pkgname root children = inr found ->
  found.*2 `sublist_of` children.
Proof.
  revert found. induction children as [|c children IH]; intros found.
  - intros [= <-]. constructor.
  - cbn [local_submodules_loop].
    destruct (modpath_to_modname w c (Some root)) as [sub|]; [|easy].
    destruct (_ || _)%bool.
    + intros H. apply sublist_cons. now apply IH.
    + destruct (local_submodules_loop w pkgname root children) as [e|more]; [easy|].
      intros [= <-]. simpl. apply sublist_skip. now apply IH.
Qed.

Lemma slice_from_dotted pkgname rel :
  PyStr.slice_from (String.length pkgname + 1) (pkgname +:+ "." +:+ rel) = rel.
Proof. induction pkgname as [|c pkgname IH]; [reflexivity|exact IH]. Qed.

Lemma slice_from_self pkgname :
  PyStr.slice_from (String.length pkgname + 1) pkgname = "".
Proof. induction pkgname as [|c pkgname IH]; [reflexivity|exact IH]. Qed.

(** In a dictionary built from pairs, the last pair with a key gives its
    value. *)
Lemma py_dict_last {V} (before after : list (string * V)) k v :
  k ∉ after.*1 -> py_dict (before ++ (k, v) :: after) !! k = Some v.
Proof.
  intros Hk. unfold py_dict.
  rewrite reverse_app, reverse_cons, <- (assoc_L (++)). simpl.
  rewrite list_to_map_app, lookup_union_r.
  - simpl. apply lookup_insert_eq.
  - apply not_elem_of_list_to_map. now rewrite fmap_reverse, elem_of_reverse.
Qed.

End discovery_facts.

(** X13.  [_find_local_submodules] yields children of the package only, in the
    order the locator enumerates them and none more often than enumerated; no
    name it yields is empty or starts with an underscore. *)
Theorem found_submodules_are_children (w : World) (pkgpath : string)
    (found : list (string * string)) :
  _find_local_submodules w pkgpath = inr found ->
  found.*2 `sublist_of` package_modpaths w pkgpath /\
  Forall (fun pair => pair.1 <> "" /\ PyStr.startswith "_" pair.1 = false) found.
Proof.
  unfold _find_local_submodules.
  destruct (modpath_to_modname w pkgpath None) as [pkgname|]; [|easy].
  destruct (root_pkgpath w pkgpath) as [e|root]; [easy|]. simpl. intros Hloop.
  split; [now apply local_submodules_loop_sublist in Hloop|].
  apply Forall_forall. intros [n p] Hin.
  apply (local_submodules_loop_spec w _ _ _ _ Hloop) in Hin
    as (_ & sub & _ & _ & Hne & Hpriv).
  now split.
Qed.

Lemma found_submodules_are_children_witness :
  ["/site/pkg/sub2.py"; "/site/pkg/sub1.py"]
    `sublist_of` package_modpaths Demo.three_subs "/site/pkg" /\
  Forall (fun pair : string * string =>
            pair.1 <> "" /\ PyStr.startswith "_" pair.1 = false)
         [("sub2", "/site/pkg/sub2.py"); ("sub1", "/site/pkg/sub1.py")].
Proof.
  exact (found_submodules_are_children Demo.three_subs "/site/pkg"
           [("sub2", "/site/pkg/sub2.py"); ("sub1", "/site/pkg/sub1.py")] eq_refl).
Defined.

(** X14.  When the locator names every child either as the package itself or
    as the package name, a dot and a relative name, cutting the prefix gives
    that relative name back: a child is yielded under [rel] exactly when its
    dotted name is [pkgname.rel] with [rel] neither empty nor starting with an
    underscore, and a child named as the package itself, such as the
    aggregator file, is not yielded. *)
Theorem relative_names_of_dotted_children (w : World) (pkgpath pkgname root : string) :
  modpath_to_modname w pkgpath None = Some pkgname ->
  root_pkgpath w pkgpath = inr root ->
  (forall child, child ∈ package_modpaths w pkgpath ->
     modpath_to_modname w child (Some root) = Some pkgname \/
     exists rel, modpath_to_modname w child (Some root)
                   = Some (pkgname +:+ "." +:+ rel)) ->
  exists found,
    _find_local_submodules w pkgpath = inr found /\
    forall rel child,
      (rel, child) ∈ found <->
      child ∈ package_modpaths w pkgpath /\
      modpath_to_modname w child (Some root) = Some (pkgname +:+ "." +:+ rel) /\
      rel <> "" /\ PyStr.startswith "_" rel = false.
Proof.
  intros Hname Hroot Hall.
  destruct (local_submodules_loop_total w pkgname root (package_modpaths w pkgpath))
    as [found Hfound].
  { intros child Hin. destruct (Hall child Hin) as [->|[rel ->]]; eauto. }
  exists found. split.
  { unfold _find_local_submodules. now rewrite Hname, Hroot. }
  intros rel child.
  rewrite (local_submodules_loop_spec w _ _ _ _ Hfound rel child). split.
  - intros (Hin & sub & Hsub & Hrel & Hne & Hpriv).
    split; [exact Hin|]. split; [|now split].
    destruct (Hall child Hin) as [Hself|[rel' Hdot]].
    + rewrite Hself in Hsub. injection Hsub as <-.
      rewrite slice_from_self in Hrel. contradiction.
    + rewrite Hdot in Hsub. injection Hsub as <-.
      rewrite slice_from_dotted in Hrel. now subst.
  - intros (Hin & Hdot & Hne & Hpriv). split; [exact Hin|].
    exists (pkgname +:+ "." +:+ rel). split; [exact Hdot|].
    split; [now rewrite slice_from_dotted|now split].
Qed.

Lemma relative_names_of_dotted_children_witness :
  exists found,
    _find_local_submodules Demo.three_subs "/site/pkg" = inr found /\
    forall rel child,
      (rel, child) ∈ found <->
      child ∈ package_modpaths Demo.three_subs "/site/pkg" /\
      modpath_to_modname Demo.three_subs child (Some "/site/pkg")
        = Some ("pkg" +:+ "." +:+ rel) /\
      rel <> "" /\ PyStr.startswith "_" rel = false.
Proof.
  apply (relative_names_of_dotted_children Demo.three_subs "/site/pkg" "pkg" "/site/pkg"
           eq_refl eq_refl).
  intros child Hin. vm_compute in Hin.
  apply elem_of_cons in Hin as [->|Hin]; [left; reflexivity|].
  apply elem_of_cons in Hin as [->|Hin]; [right; exists "sub2"; reflexivity|].
  apply elem_of_cons in Hin as [->|Hin]; [right; exists "_sub3"; reflexivity|].
  apply elem_of_cons in Hin as [->|Hin]; [right; exists "sub1"; reflexivity|].
  now apply elem_of_nil in Hin.
Defined.

(** X15.  When two children of a package have the same relative name, the one
    enumerated last is the one whose source is read: the dictionary of
    discovery holds, for each name, the path of the last child yielded under
    that name. *)
Theorem last_child_of_a_name_wins (w : World) (modpath : string)
    (before after : list (string * string)) (rel_modname sub_modpath : string) :
  _find_local_submodules w modpath = inr (before ++ (rel_modname, sub_modpath) :: after) ->
  rel_modname ∉ after.*1 ->
  exists names paths,
    resolve_imports w modpath VNone = inr (VNames names, names, paths) /\
    rel_modname ∈ names /\
    paths !! rel_modname = Some (Some sub_modpath).
Proof.
  intros Hfound Hlast. unfold resolve_imports. rewrite Hfound. simpl.
  eexists _, _. split; [reflexivity|].
  assert (py_dict (prod_map id Some <$> before ++ (rel_modname, sub_modpath) :: after)
            !! rel_modname = Some (Some sub_modpath)) as Hlook.
  { rewrite fmap_app, fmap_cons. apply py_dict_last.
    rewrite <- list_fmap_compose.
    now replace (fst ∘ prod_map id Some) with (@fst string string) by reflexivity. }
  split; [|exact Hlook].
  apply PyStrFacts.elem_of_sorted, elem_of_py_keys. now rewrite Hlook.
Qed.

(** The module [foo.py] is enumerated before the package [foo]: the package
    is read. *)
Lemma last_child_of_a_name_wins_witness :
  exists names paths,
    resolve_imports Cases.shadowed "/site/pkg" VNone = inr (VNames names, names, paths) /\
    "foo" ∈ names /\
    paths !! "foo" = Some (Some "/site/pkg/foo").
Proof.
  apply (last_child_of_a_name_wins Cases.shadowed "/site/pkg"
           [("foo", "/site/pkg/foo.py")] [] "foo" "/site/pkg/foo" eq_refl).
  apply not_elem_of_nil.
Defined.
